(** * Quiz Master: question store and session state machine

    A shallow embedding of [quiz_streamlit.py] (class [QuizApp]).

    - The per-user SQLite table [questions] is a finite map from the
      [INTEGER PRIMARY KEY] to the remaining nine columns.
    - [st.session_state] is a record with the six keys the program uses;
      [__init__], which runs before any of them need exist, works on the
      dict itself.
    - The two sources of randomness ([ORDER BY RANDOM()] in SQLite and
      [random.shuffle] in Python) are streams handed to the operation that
      consumes them; every statement below quantifies over all streams.
    - Calls into the Streamlit host ([st.error], [st.toast], [st.rerun]) are
      recorded: messages in the [ui] log of the world, [st.rerun] and uncaught
      Python exceptions in the [Outcome] of a handler.
    - SQL statements are modelled by what they do to the table; a primary-key
      conflict and a missing master table are the [sqlite3.Error]s the model
      raises, failures of the storage medium itself are outside it. *)

From stdpp Require Import base option list gmap strings sorting.
From Stdlib Require Import ZArith Lia.

Local Open Scope Z_scope.
Local Open Scope string_scope.
Local Open Scope list_scope.

(** ** Data model *)

(** A nullable [TEXT] column; in Python a [str] or [None]. *)
Abbreviation Text := (option string).

(** One row of [questions], without its key [id]. *)
Record Row := mkRow {
  question : Text;
  option1 : Text;
  option2 : Text;
  option3 : Text;
  option4 : Text;
  option5 : Text;
  answer : Text;
  has_asked : Z;
  user_answered_correctly : Z
}.

(** The table [questions]: [id INTEGER PRIMARY KEY] is the key. *)
Abbreviation Table := (gmap Z Row).

(** Python's [bool] bound to a SQL parameter is stored as 0 or 1. *)
Definition sql_bool (b : bool) : Z := if b then 1 else 0.

(** The dict built by [dict(zip([...], row))] in [get_random_questions];
    [start_quiz] later adds the key ['shuffled_options']. *)
Record QDict := mkQDict {
  q_id : Z;
  q_question : Text;
  q_option1 : Text;
  q_option2 : Text;
  q_option3 : Text;
  q_option4 : Text;
  q_option5 : Text;
  q_answer : Text;
  q_shuffled_options : option (list Text)
}.

(** The dict appended to [st.session_state.results] by [submit_answer]. *)
Record Result := mkResult {
  r_question : Text;
  r_correct_answer : Text;
  r_user_answer : Text;
  r_is_correct : bool
}.

(** ['menu'], ['quiz'] and ['results'] *)
Inductive Stage := Menu | Quiz | Results.

Record Session := mkSession {
  current_stage : Stage;
  quiz_type : option string;
  questions : list QDict;
  current_question_index : nat;
  user_answers : list Text;
  results : list Result
}.

Inductive Msg :=
| StError (text : string)
| StToast (text : string).

Record World := mkWorld {
  db : Table;
  session_state : Session;
  ui : list Msg
}.

Inductive Exn := IndexError | KeyError.

Inductive Outcome := Returned | Rerun | Raised (e : Exn).

(** ** [initialize_session_state] *)

Definition initial_session : Session :=
  {| current_stage := Menu;
     quiz_type := None;
     questions := [];
     current_question_index := 0;
     user_answers := [];
     results := [] |}.

(** ** [get_random_questions] *)

(** [ORDER BY RANDOM()]: SQLite evaluates [RANDOM()] once for each row the
    [WHERE] clause lets through and sorts the rows by that value.  [keys n] is
    the value drawn for the [n]-th such row; rows are visited in the order
    [map_to_list] lists them, and the statements below hold for every
    [keys]. *)
Definition key_le {A} (x y : Z * A) : Prop := (x.1 ≤ y.1)%Z.

#[global] Instance key_le_dec {A} (x y : Z * A) : Decision (key_le x y).
Proof. unfold key_le. apply _. Defined.

Definition with_keys {A} (keys : nat → Z) (rows : list A) : list (Z * A) :=
  imap (λ n r, (keys n, r)) rows.

Definition order_by_random {A} (keys : nat → Z) (rows : list A) : list A :=
  (merge_sort key_le (with_keys keys rows)).*2.

(** [LIMIT 10] *)
Definition limit_10 {A} (rows : list A) : list A := take 10 rows.

(** The three [WHERE] clauses; option 1 has none. *)
Definition where_clause (opt : Z) (r : Row) : bool :=
  if decide (opt = 1) then true
  else if decide (opt = 2) then bool_decide (has_asked r = 0)
  else if decide (opt = 3) then
    bool_decide (has_asked r = 1) && bool_decide (user_answered_correctly r = 0)
  else false.

(** The eight selected columns, zipped with their names. *)
Definition to_dict (kr : Z * Row) : QDict :=
  {| q_id := kr.1;
     q_question := question kr.2;
     q_option1 := option1 kr.2;
     q_option2 := option2 kr.2;
     q_option3 := option3 kr.2;
     q_option4 := option4 kr.2;
     q_option5 := option5 kr.2;
     q_answer := answer kr.2;
     q_shuffled_options := None |}.

(** For an [opt] other than 1, 2, 3 no statement is executed and
    [cursor.fetchall()] is empty; [where_clause] is [false] on every row. *)
Definition matching (opt : Z) (t : Table) : list (Z * Row) :=
  filter (λ kr, where_clause opt kr.2 = true) (map_to_list t).

Definition get_random_questions (keys : nat → Z) (opt : Z) (t : Table) : list QDict :=
  to_dict <$> limit_10 (order_by_random keys (matching opt t)).

(** ** [reset_all_questions] *)

(** [UPDATE questions SET has_asked = 0, user_answered_correctly = 0] *)
Definition reset_row (r : Row) : Row :=
  {| question := question r;
     option1 := option1 r; option2 := option2 r; option3 := option3 r;
     option4 := option4 r; option5 := option5 r;
     answer := answer r;
     has_asked := 0;
     user_answered_correctly := 0 |}.

(** The toast is recorded without its trailing emoji. *)
Definition reset_all_questions (w : World) : Outcome * World :=
  (Returned,
   {| db := reset_row <$> db w;
      session_state := session_state w;
      ui := ui w ++ [StToast "All questions have been reset successfully!"] |}).

(** ** [random.shuffle] *)

(** [x[i], x[j] = x[j], x[i]]: the right-hand side is read first, then
    [x[i]] and [x[j]] are stored in that order.  [shuffle] only calls it with
    [j <= i < len(x)], where Python raises no [IndexError]. *)
Definition swap {A} (i j : nat) (x : list A) : list A :=
  match x !! i, x !! j with
  | Some xi, Some xj => <[j:=xi]> (<[i:=xj]> x)
  | _, _ => x
  end.

(** The rest of a stream after [k] draws. *)
Definition advance {B} (k : nat) (rnd : nat → B) : nat → B := λ n, rnd (k + n)%nat.

(** [for i in reversed(range(1, len(x))): j = randbelow(i + 1); swap].
    [randbelow (i + 1)] is the next draw reduced into [0 .. i]. *)
Fixpoint shuffle_loop {A} (i : nat) (rnd : nat → nat) (x : list A) : list A :=
  match i with
  | O => x
  | S i' => shuffle_loop i' (advance 1 rnd) (swap i (rnd O `mod` S i)%nat x)
  end.

Definition shuffle {A} (rnd : nat → nat) (x : list A) : list A :=
  shuffle_loop (length x - 1) rnd x.

(** ** [start_quiz] *)

Definition quiz_option_map (quiz_type : string) : option Z :=
  if decide (quiz_type = "Random Quiz") then Some 1
  else if decide (quiz_type = "Untested Questions Quiz") then Some 2
  else if decide (quiz_type = "Incorrect Questions Quiz") then Some 3
  else None.

Definition stored_options (q : QDict) : list Text :=
  [q_option1 q; q_option2 q; q_option3 q; q_option4 q; q_option5 q].

Definition set_shuffled_options (q : QDict) (options : list Text) : QDict :=
  {| q_id := q_id q;
     q_question := q_question q;
     q_option1 := q_option1 q; q_option2 := q_option2 q;
     q_option3 := q_option3 q; q_option4 := q_option4 q;
     q_option5 := q_option5 q;
     q_answer := q_answer q;
     q_shuffled_options := Some options |}.

(** The loop [for question in questions]; each pass uses the draws the
    previous passes left. *)
Fixpoint shuffle_each (rnd : nat → nat) (qs : list QDict) : list QDict :=
  match qs with
  | [] => []
  | q :: qs' =>
      let options := stored_options q in
      set_shuffled_options q (shuffle rnd options)
        :: shuffle_each (advance (length options - 1) rnd) qs'
  end.

Definition not_enough (quiz_type : string) : Msg :=
  StError ("Not enough questions available for " +:+ quiz_type +:+ ".").

Definition start_quiz (keys : nat → Z) (rnd : nat → nat) (qt : string)
    (w : World) : Outcome * World :=
  match quiz_option_map qt with
  | None => (Raised KeyError, w)
  | Some opt =>
      let qs := get_random_questions keys opt (db w) in
      if decide (length qs < 10)%nat then
        (Returned,
         {| db := db w;
            session_state := session_state w;
            ui := ui w ++ [not_enough qt] |})
      else
        (Rerun,
         {| db := db w;
            session_state :=
              {| current_stage := Quiz;
                 quiz_type := Some qt;
                 questions := shuffle_each rnd qs;
                 current_question_index := 0;
                 user_answers := [];
                 results := [] |};
            ui := ui w |})
  end.

(** ** [submit_answer] *)

(** [UPDATE questions SET has_asked = 1, user_answered_correctly = ?
     WHERE id = ?] *)
Definition mark_answered (is_correct : bool) (r : Row) : Row :=
  {| question := question r;
     option1 := option1 r; option2 := option2 r; option3 := option3 r;
     option4 := option4 r; option5 := option5 r;
     answer := answer r;
     has_asked := 1;
     user_answered_correctly := sql_bool is_correct |}.

Definition record_answer (id : Z) (is_correct : bool) (t : Table) : Table :=
  alter (mark_answered is_correct) id t.

Definition submit_answer (user_answer : Text) (w : World) : Outcome * World :=
  let s := session_state w in
  match questions s !! current_question_index s with
  | None => (Raised IndexError, w)
  | Some current_question =>
      let is_correct := bool_decide (user_answer = q_answer current_question) in
      let result :=
        {| r_question := q_question current_question;
           r_correct_answer := q_answer current_question;
           r_user_answer := user_answer;
           r_is_correct := is_correct |} in
      let index' := S (current_question_index s) in
      (Rerun,
       {| db := record_answer (q_id current_question) is_correct (db w);
          session_state :=
            {| current_stage :=
                 if decide (length (questions s) ≤ index')%nat
                 then Results else current_stage s;
               quiz_type := quiz_type s;
               questions := questions s;
               current_question_index := index';
               user_answers := user_answers s ++ [user_answer];
               results := results s ++ [result] |};
          ui := ui w |})
  end.

(** ** The "Return to Menu" button of [render_results] *)

Definition return_to_menu (w : World) : Outcome * World :=
  let s := session_state w in
  (Rerun,
   {| db := db w;
      session_state :=
        {| current_stage := Menu;
           quiz_type := quiz_type s;
           questions := questions s;
           current_question_index := current_question_index s;
           user_answers := user_answers s;
           results := results s |};
      ui := ui w |}).

(** ** [initialize_user_database] *)

(** One [INSERT]: a second row with the same primary key is an
    [sqlite3.IntegrityError]. *)
Definition sql_insert (t : option Table) (kr : Z * Row) : option Table :=
  t' ← t;
  match t' !! kr.1 with
  | Some _ => None
  | None => Some (<[kr.1:=kr.2]> t')
  end.

Definition executemany_insert (rows : list (Z * Row)) (t : Table) : option Table :=
  foldl sql_insert (Some t) rows.

(** [master] is the table [questions] of [questions.db], [None] when that
    file has no such table.  [CREATE TABLE IF NOT EXISTS] makes a missing
    user table an empty one, so both are the empty map.  An [sqlite3.Error]
    is caught and reported (the message is recorded without the text of the
    exception), and the connection is closed without a commit: the table
    keeps its committed content. *)
Definition initialize_user_database (master : option Table) (w : World) : World :=
  let count := size (db w) in
  if decide (count = 0)%nat then
    match master with
    | None =>
        {| db := db w; session_state := session_state w;
           ui := ui w ++ [StError "Database initialization error"] |}
    | Some m =>
        match executemany_insert (map_to_list m) (db w) with
        | Some t' =>
            {| db := t'; session_state := session_state w; ui := ui w |}
        | None =>
            {| db := db w; session_state := session_state w;
               ui := ui w ++ [StError "Database initialization error"] |}
        end
    end
  else w.

(** ** [run] *)

Definition quiz_types : list string :=
  ["Random Quiz"; "Untested Questions Quiz"; "Incorrect Questions Quiz"].

(** What the user did on the page that was rendered: nothing, or one button.
    [ClickQuiz] is the [i]-th button of the loop over [quiz_types], with the
    random values its handler will draw. *)
Inductive Click :=
| NoClick
| ClickQuiz (keys : nat → Z) (rnd : nat → nat) (i : nat)
| ClickReset
| ClickSubmit (user_answer : Text)
| ClickReturn.

Definition render_menu (c : Click) (w : World) : Outcome * World :=
  match c with
  | ClickQuiz keys rnd i =>
      match quiz_types !! i with
      | Some qt => start_quiz keys rnd qt w
      | None => (Returned, w)
      end
  | ClickReset => reset_all_questions w
  | _ => (Returned, w)
  end.

Definition render_quiz (c : Click) (w : World) : Outcome * World :=
  let s := session_state w in
  match questions s !! current_question_index s with
  | None => (Raised IndexError, w)
  | Some current_question =>
      match q_shuffled_options current_question with
      | None => (Raised KeyError, w)
      | Some _ =>
          match c with
          | ClickSubmit user_answer => submit_answer user_answer w
          | _ => (Returned, w)
          end
      end
  end.

Definition render_results (c : Click) (w : World) : Outcome * World :=
  match c with
  | ClickReturn => return_to_menu w
  | _ => (Returned, w)
  end.

Definition run (c : Click) (w : World) : Outcome * World :=
  match current_stage (session_state w) with
  | Menu => render_menu c w
  | Quiz => render_quiz c w
  | Results => render_results c w
  end.

(** One execution of the script: [QuizApp()] then [run()]. *)
Definition main (master : option Table) (c : Click) (w : World) : Outcome * World :=
  run c (initialize_user_database master w).

(** ** Executions *)

(** A handler call, whatever the stage; [EvReload] is the constructor
    [QuizApp()] that every execution of the script runs first. *)
Inductive Event :=
| EvStart (keys : nat → Z) (rnd : nat → nat) (qt : string)
| EvSubmit (user_answer : Text)
| EvReturn
| EvReset
| EvReload (master : option Table).

Definition handle (e : Event) (w : World) : Outcome * World :=
  match e with
  | EvStart keys rnd qt => start_quiz keys rnd qt w
  | EvSubmit user_answer => submit_answer user_answer w
  | EvReturn => return_to_menu w
  | EvReset => reset_all_questions w
  | EvReload master => (Returned, initialize_user_database master w)
  end.

(** Session state and table outlive an exception: the next handler starts
    from whatever the previous one left. *)
Definition run_events (es : list Event) (w : World) : World :=
  foldl (λ w e, (handle e w).2) w es.

(** Successive executions of the script, each with what the user clicked. *)
Definition run_clicks (cs : list (option Table * Click)) (w : World) : World :=
  foldl (λ w mc, (main mc.1 mc.2 w).2) w cs.

(** A new browser session over the table [t]. *)
Definition fresh (t : Table) : World :=
  {| db := t; session_state := initial_session; ui := [] |}.

(** ** Vocabulary of the specification *)

Inductive Filter := ALL | UNASKED | INCORRECT.

Definition filter_option (f : Filter) : Z :=
  match f with ALL => 1 | UNASKED => 2 | INCORRECT => 3 end.

Definition matches (f : Filter) (r : Row) : Prop :=
  match f with
  | ALL => True
  | UNASKED => has_asked r = 0
  | INCORRECT => has_asked r = 1 ∧ user_answered_correctly r = 0
  end.

(** [position == len(results)] and [position] in [[0, 10]]. *)
Definition position_inv (s : Session) : Prop :=
  current_question_index s = length (results s) ∧
  (current_question_index s ≤ 10)%nat.

(** What every handler preserves. *)
Definition session_ok (s : Session) : Prop :=
  current_question_index s = length (results s) ∧
  length (user_answers s) = current_question_index s ∧
  (current_question_index s ≤ length (questions s))%nat ∧
  (length (questions s) ≤ 10)%nat.

(** What the dispatch of [run] preserves on top of it. *)
Definition dispatch_ok (s : Session) : Prop :=
  session_ok s ∧
  (current_stage s = Quiz →
     (current_question_index s < length (questions s))%nat) ∧
  (current_stage s ≠ Quiz →
     (length (questions s) ≤ current_question_index s)%nat) ∧
  (current_stage s ≠ Menu → length (questions s) = 10%nat) ∧
  Forall (λ q, is_Some (q_shuffled_options q)) (questions s).

Definition shuffled_from (q0 q : QDict) : Prop :=
  ∃ options, q = set_shuffled_options q0 options ∧ options ≡ₚ stored_options q0.

(** The stored option order of a row. *)
Definition row_options (r : Row) : list Text :=
  [option1 r; option2 r; option3 r; option4 r; option5 r].

(** Question text, options and answer of a row. *)
Definition same_content (r r' : Row) : Prop :=
  question r' = question r ∧ row_options r' = row_options r ∧
  answer r' = answer r.

(** How many times [a] is among the options [l]. *)
Definition occurrences (a : Text) (l : list Text) : nat :=
  length (filter (λ o, o = a) l).

(** "Return to menu discards batch, answers and results and clears the
    quiz-type label." *)
Definition return_discards (w : World) : Prop :=
  let s' := session_state (return_to_menu w).2 in
  current_stage s' = Menu ∧ questions s' = [] ∧ user_answers s' = [] ∧
  results s' = [] ∧ quiz_type s' = None.

(** "After [reset_all], [query(UNASKED)] returns the full set." *)
Definition reset_returns_full_set (keys : nat → Z) (w : World) : Prop :=
  q_id <$> get_random_questions keys (filter_option UNASKED)
             (db (reset_all_questions w).2)
  ≡ₚ (map_to_list (db w)).*1.

(** "A submit that the session does not accept is ignored or reported, with
    no out-of-bounds indexing and the session state unchanged." *)
Definition submit_guarded (user_answer : Text) (w : World) : Prop :=
  (submit_answer user_answer w).1 ≠ Raised IndexError ∧
  (submit_answer user_answer w).2 = w.

(** ** What the pages display *)

(** [render_results]: [sum(1 for result in results if result['is_correct'])] *)
Definition score (rs : list Result) : nat :=
  sum_list ((λ _, 1%nat) <$> filter (λ r, r_is_correct r = true) rs).

(** [render_quiz]: the [k] of the heading "Question k/10"; the progress bar
    is given [k / 10]. *)
Definition question_number (s : Session) : nat :=
  (current_question_index s + 1)%nat.

(** ** Further vocabulary *)

(** The result dict [submit_answer] builds from the current question and the
    submitted answer. *)
Definition judge (q : QDict) (user_answer : Text) : Result :=
  {| r_question := q_question q;
     r_correct_answer := q_answer q;
     r_user_answer := user_answer;
     r_is_correct := bool_decide (user_answer = q_answer q) |}.

(** The results are the batch judged against the answers given so far. *)
Definition judged (s : Session) : Prop :=
  results s = zip_with judge (questions s) (user_answers s).

(** Every question of the batch carries a shuffle of its own options. *)
Definition options_shuffled (s : Session) : Prop :=
  Forall (λ q, ∃ options, q_shuffled_options q = Some options ∧
                          options ≡ₚ stored_options q) (questions s).

(** A question of the batch agrees with its row of the table. *)
Definition from_row (q : QDict) (r : Row) : Prop :=
  q_question q = question r ∧ stored_options q = row_options r ∧
  q_answer q = answer r.

(** During and after a quiz the table holds what the session shows: the batch
    has no id twice, every question of it agrees with its row, and the row of
    every question answered so far is marked asked, with the correctness the
    result shows. *)
Definition batch_recorded (w : World) : Prop :=
  current_stage (session_state w) ≠ Menu →
  NoDup (q_id <$> questions (session_state w)) ∧
  (∀ q, q ∈ questions (session_state w) →
        ∃ row, db w !! q_id q = Some row ∧ from_row q row) ∧
  (∀ j q r,
     questions (session_state w) !! j = Some q →
     results (session_state w) !! j = Some r →
     ∃ row, db w !! q_id q = Some row ∧ has_asked row = 1 ∧
            user_answered_correctly row = sql_bool (r_is_correct r)).

(** The questions of the batch still to be answered are different questions
    and their rows are untested. *)
Definition pending_untested (w : World) : Prop :=
  NoDup (q_id <$> questions (session_state w)) ∧
  ∀ j q, (current_question_index (session_state w) ≤ j)%nat →
         questions (session_state w) !! j = Some q →
         ∃ r, db w !! q_id q = Some r ∧ has_asked r = 0.

(** ** [__init__] on the dict [st.session_state] *)

(** Before [__init__] has run, [st.session_state] may lack any of its keys;
    this second view of the session is the dict itself. *)
Inductive Item :=
| ItemQuestion (q : QDict)
| ItemAnswer (a : Text)
| ItemResult (r : Result).

Inductive PyVal :=
| PyNone
| PyInt (n : Z)
| PyStr (s : string)
| PyList (l : list Item).

Abbreviation SessionDict := (gmap string PyVal).

(** [str(uuid.uuid4())[:8]]; [uuid] is the text of the UUID drawn. *)
Definition generate_user_id (uuid : string) : string :=
  String.substring 0 8 uuid.

(** [if 'user_id' not in st.session_state:
      st.session_state.user_id = st.session_state.get('user_id', ...)] *)
Definition init_user_id (uuid : string) (d : SessionDict) : SessionDict :=
  match d !! "user_id" with
  | Some _ => d
  | None => <["user_id" := PyStr (generate_user_id uuid)]> d
  end.

Definition USER_DB_DIR : string := ".user_databases".

Fixpoint ends_with_sep (s : string) : bool :=
  match s with
  | EmptyString => false
  | String c EmptyString => bool_decide (String c EmptyString = "/")
  | String _ s' => ends_with_sep s'
  end.

(** [os.path.join(a, b)] of [posixpath]: an absolute [b] replaces [a];
    otherwise [b] is appended, after a ["/"] unless [a] is empty or ends in
    one. *)
Definition path_join (a b : string) : string :=
  if String.prefix "/" b then b
  else if bool_decide (a = "") || ends_with_sep a then a +:+ b
  else a +:+ "/" +:+ b.

(** [os.path.join(USER_DB_DIR, f"{user_id}_questions.db")] *)
Definition db_path (user_id : string) : string :=
  path_join USER_DB_DIR (user_id +:+ "_questions.db").

(** The dict [defaults] of [initialize_session_state], in its order. *)
Definition defaults : list (string * PyVal) :=
  [("current_stage", PyStr "menu");
   ("quiz_type", PyNone);
   ("questions", PyList []);
   ("current_question_index", PyInt 0);
   ("user_answers", PyList []);
   ("results", PyList [])].

(** [if key not in st.session_state: st.session_state[key] = default] *)
Definition set_default (d : SessionDict) (kv : string * PyVal) : SessionDict :=
  match d !! kv.1 with
  | Some _ => d
  | None => <[kv.1:=kv.2]> d
  end.

Definition initialize_session_state (d : SessionDict) : SessionDict :=
  foldl set_default d defaults.

(** What [__init__] does to the dict: the user id first, the defaults last
    (the table is initialized in between, see [main]). *)
Definition quiz_app_init (uuid : string) (d : SessionDict) : SessionDict :=
  initialize_session_state (init_user_id uuid d).

(** [self.db_path], for a user id that is a string. *)
Definition session_db_path (d : SessionDict) : option string :=
  match d !! "user_id" with
  | Some (PyStr user_id) => Some (db_path user_id)
  | _ => None
  end.

(** ** Concrete data used in the examples *)

(** A question with three options, never asked. *)
Definition sample_row : Row :=
  mkRow (Some "q") (Some "a") (Some "b") (Some "c") None None (Some "a") 0 0.

(** A table of [n] such questions, with ids [0 .. n-1]. *)
Definition sample_table (n : nat) : Table :=
  list_to_map ((λ i : nat, (Z.of_nat i, sample_row)) <$> seq 0 n).

Definition sample_keys : nat → Z := λ n, ((Z.of_nat n * 7) `mod` 5)%Z.

Definition sample_world (n : nat) : World :=
  {| db := sample_table n; session_state := initial_session; ui := [] |}.

Definition sample_rnd : nat → nat := λ n, (n * 3)%nat.

(** A new user over a master set of twelve questions starts the quiz of
    untested questions and answers all ten questions with "a". *)
Definition start_click : option Table * Click :=
  (Some (sample_table 12), ClickQuiz sample_keys sample_rnd 1).

Definition played_clicks : list (option Table * Click) :=
  start_click :: replicate 10 (Some (sample_table 12), ClickSubmit (Some "a")).

Definition started : World := run_clicks [start_click] (fresh ∅).

Definition played : World := run_clicks played_clicks (fresh ∅).

(** ** Sorting and sampling *)

Section order_by_random.
Context {A : Type}.
Implicit Types (rows : list A) (keys : nat → Z).

Lemma with_keys_snd keys rows : (with_keys keys rows).*2 = rows.
Proof.
  unfold with_keys. revert keys.
  induction rows as [|r rows IH]; intros keys; [done|].
  cbn. f_equal. apply (IH (keys ∘ S)).
Qed.

Lemma order_by_random_perm keys rows : order_by_random keys rows ≡ₚ rows.
Proof.
  unfold order_by_random.
  rewrite (merge_sort_Permutation key_le (with_keys keys rows)).
  by rewrite with_keys_snd.
Qed.

Lemma order_by_random_length keys rows :
  length (order_by_random keys rows) = length rows.
Proof. by rewrite order_by_random_perm. Qed.
End order_by_random.

Lemma to_dict_id (l : list (Z * Row)) : q_id <$> (to_dict <$> l) = l.*1.
Proof. rewrite <- list_fmap_compose. by apply list_fmap_ext. Qed.

Lemma matching_elem opt (t : gmap Z Row) id r :
  (id, r) ∈ matching opt t ↔ t !! id = Some r ∧ where_clause opt r = true.
Proof.
  unfold matching. rewrite list_elem_of_filter, elem_of_map_to_list.
  simpl. tauto.
Qed.

Lemma matching_NoDup opt (t : gmap Z Row) : NoDup (matching opt t).*1.
Proof.
  apply (sublist_NoDup _ (map_to_list t).*1); [apply NoDup_fst_map_to_list|].
  apply fmap_sublist, sublist_filter.
Qed.

(** The ids of a sample are the first ten of some ordering of the ids that
    match. *)
Lemma get_random_questions_ids keys opt (t : gmap Z Row) :
  ∃ l, l ≡ₚ matching opt t ∧
       get_random_questions keys opt t = to_dict <$> take 10 l.
Proof.
  exists (order_by_random keys (matching opt t)). split; [|done].
  apply order_by_random_perm.
Qed.

Lemma get_random_questions_length keys opt (t : gmap Z Row) :
  length (get_random_questions keys opt t) = (length (matching opt t) `min` 10)%nat.
Proof.
  unfold get_random_questions, limit_10.
  rewrite length_fmap, length_take, order_by_random_length. lia.
Qed.

Lemma get_random_questions_elem keys opt (t : gmap Z Row) q :
  q ∈ get_random_questions keys opt t →
  ∃ r, t !! q_id q = Some r ∧ where_clause opt r = true ∧ q = to_dict (q_id q, r).
Proof.
  destruct (get_random_questions_ids keys opt t) as (l & Hl & ->).
  intros ([id r] & -> & Hin)%list_elem_of_fmap.
  apply (subseteq_take 10 l) in Hin. rewrite Hl in Hin.
  apply matching_elem in Hin as [? ?]. by exists r.
Qed.

Lemma get_random_questions_NoDup keys opt (t : gmap Z Row) :
  NoDup (q_id <$> get_random_questions keys opt t).
Proof.
  destruct (get_random_questions_ids keys opt t) as (l & Hl & ->).
  rewrite to_dict_id.
  apply (sublist_NoDup _ l.*1); [|apply fmap_sublist, sublist_take].
  rewrite Hl. apply matching_NoDup.
Qed.

(** ** The shuffle is a permutation *)

Section shuffle.
Context {A : Type}.
Implicit Types (x : list A) (rnd : nat → nat).

Lemma insert_head_perm x j a b :
  x !! j = Some b → b :: <[j:=a]> x ≡ₚ a :: x.
Proof.
  revert j. induction x as [|c x IH]; intros [|j] Hj; simplify_eq/=.
  - apply perm_swap.
  - rewrite perm_swap, (IH j Hj). apply perm_swap.
Qed.

Lemma swap_perm i j x : swap i j x ≡ₚ x.
Proof.
  unfold swap.
  destruct (x !! i) as [xi|] eqn:Hi; [|done].
  destruct (x !! j) as [xj|] eqn:Hj; [|done].
  revert i j Hi Hj.
  induction x as [|c x IH]; intros [|i] [|j] Hi Hj; simplify_eq/=.
  - done.
  - by apply insert_head_perm.
  - by apply insert_head_perm.
  - f_equiv. by apply IH.
Qed.

Lemma shuffle_loop_perm i rnd x : shuffle_loop i rnd x ≡ₚ x.
Proof.
  revert rnd x. induction i as [|i IH]; intros rnd x; [done|].
  simpl. rewrite IH. apply swap_perm.
Qed.

Lemma shuffle_perm rnd x : shuffle rnd x ≡ₚ x.
Proof. apply shuffle_loop_perm. Qed.
End shuffle.

Lemma shuffle_each_Forall2 rnd qs : Forall2 shuffled_from qs (shuffle_each rnd qs).
Proof.
  revert rnd. induction qs as [|q qs IH]; intros rnd; simpl; constructor.
  - eexists. split; [done|]. apply shuffle_perm.
  - apply IH.
Qed.

Lemma shuffle_each_length rnd qs : length (shuffle_each rnd qs) = length qs.
Proof. symmetry. eapply Forall2_length, shuffle_each_Forall2. Qed.

Lemma shuffle_each_elem rnd qs q :
  q ∈ shuffle_each rnd qs → ∃ q0, q0 ∈ qs ∧ shuffled_from q0 q.
Proof.
  intros [i Hi]%list_elem_of_lookup.
  destruct (Forall2_lookup_r _ _ _ _ _ (shuffle_each_Forall2 rnd qs) Hi)
    as (q0 & Hq0 & Hsh).
  exists q0. split; [|done]. by eapply list_elem_of_lookup_2.
Qed.

(** ** What each handler does to the session *)

Lemma initial_session_ok : dispatch_ok initial_session.
Proof.
  repeat split; simpl; try lia; try done.
Qed.

Lemma start_quiz_cases keys rnd qt w :
  (quiz_option_map qt = None ∧ start_quiz keys rnd qt w = (Raised KeyError, w)) ∨
  (∃ opt, quiz_option_map qt = Some opt ∧
     (length (matching opt (db w)) < 10)%nat ∧
     start_quiz keys rnd qt w =
       (Returned, {| db := db w; session_state := session_state w;
                     ui := ui w ++ [not_enough qt] |})) ∨
  (∃ opt, quiz_option_map qt = Some opt ∧
     (10 ≤ length (matching opt (db w)))%nat ∧
     start_quiz keys rnd qt w =
       (Rerun, {| db := db w;
                  session_state :=
                    {| current_stage := Quiz;
                       quiz_type := Some qt;
                       questions :=
                         shuffle_each rnd (get_random_questions keys opt (db w));
                       current_question_index := 0;
                       user_answers := [];
                       results := [] |};
                  ui := ui w |})).
Proof.
  unfold start_quiz. destruct (quiz_option_map qt) as [opt|]; [right|by left].
  pose proof (get_random_questions_length keys opt (db w)) as Hlen.
  case_decide; [left|right]; exists opt; (split; [done|]); split; (lia || done).
Qed.

Lemma start_quiz_batch keys rnd opt (t : gmap Z Row) :
  (10 ≤ length (matching opt t))%nat →
  length (shuffle_each rnd (get_random_questions keys opt t)) = 10%nat.
Proof.
  intros. rewrite shuffle_each_length, get_random_questions_length. lia.
Qed.

Lemma shuffle_each_has_options rnd qs :
  Forall (λ q, is_Some (q_shuffled_options q)) (shuffle_each rnd qs).
Proof.
  apply Forall_forall. intros q (q0 & _ & options & -> & _)%shuffle_each_elem.
  by eexists.
Qed.

Lemma start_quiz_session_ok keys rnd qt w :
  session_ok (session_state w) →
  session_ok (session_state (start_quiz keys rnd qt w).2).
Proof.
  intros Hok.
  destruct (start_quiz_cases keys rnd qt w)
    as [[_ ->]|[(opt & _ & _ & ->)|(opt & _ & Hn & ->)]]; [done..|].
  unfold session_ok; simpl. rewrite (start_quiz_batch _ _ _ _ Hn). lia.
Qed.

Lemma start_quiz_dispatch_ok keys rnd qt w :
  dispatch_ok (session_state w) →
  dispatch_ok (session_state (start_quiz keys rnd qt w).2).
Proof.
  intros Hok.
  destruct (start_quiz_cases keys rnd qt w)
    as [[_ ->]|[(opt & _ & _ & ->)|(opt & _ & Hn & ->)]]; [done..|].
  unfold dispatch_ok, session_ok; simpl.
  rewrite (start_quiz_batch _ _ _ _ Hn).
  repeat split; try lia; try done. apply shuffle_each_has_options.
Qed.

Lemma submit_answer_raises user_answer w :
  (length (questions (session_state w))
     ≤ current_question_index (session_state w))%nat →
  submit_answer user_answer w = (Raised IndexError, w).
Proof.
  intros Hge. unfold submit_answer. by rewrite (lookup_ge_None_2 _ _ Hge).
Qed.

Lemma submit_answer_session_ok user_answer w :
  session_ok (session_state w) →
  session_ok (session_state (submit_answer user_answer w).2).
Proof.
  intros (Hres & Hans & Hle & Hten). unfold submit_answer.
  destruct (questions _ !! _) as [q|] eqn:Hq; [|done].
  apply lookup_lt_Some in Hq.
  unfold session_ok; simpl. rewrite !length_app; simpl. lia.
Qed.

Lemma submit_answer_dispatch_ok user_answer w :
  current_stage (session_state w) = Quiz →
  dispatch_ok (session_state w) →
  dispatch_ok (session_state (submit_answer user_answer w).2).
Proof.
  intros Hstage (Hok & Hquiz & Hother & Hten & Hopts).
  split; [by apply submit_answer_session_ok|].
  unfold submit_answer.
  destruct (questions _ !! _) as [q|] eqn:Hq; [|done].
  apply lookup_lt_Some in Hq. simpl.
  case_decide; repeat split; try done; try lia.
  all: intros; apply Hten; congruence.
Qed.

Lemma return_to_menu_dispatch_ok w :
  current_stage (session_state w) = Results →
  dispatch_ok (session_state w) →
  dispatch_ok (session_state (return_to_menu w).2).
Proof.
  intros Hstage ((? & ? & ? & ?) & Hquiz & Hother & Hten & Hopts).
  unfold dispatch_ok, session_ok; simpl.
  repeat split; try done. intros _. apply Hother. congruence.
Qed.

Lemma initialize_user_database_session master w :
  session_state (initialize_user_database master w) = session_state w.
Proof.
  unfold initialize_user_database.
  case_decide; [|done]. destruct master as [m|]; [|done].
  by destruct (executemany_insert _ _).
Qed.

Lemma handle_session_ok e w :
  session_ok (session_state w) → session_ok (session_state (handle e w).2).
Proof.
  destruct e; simpl.
  - apply start_quiz_session_ok.
  - apply submit_answer_session_ok.
  - done.
  - done.
  - by rewrite initialize_user_database_session.
Qed.

Lemma run_events_session_ok es w :
  session_ok (session_state w) → session_ok (session_state (run_events es w)).
Proof.
  revert w. induction es as [|e es IH]; intros w Hok; [done|].
  apply IH, handle_session_ok, Hok.
Qed.

Lemma run_dispatch_ok c w :
  dispatch_ok (session_state w) → dispatch_ok (session_state (run c w).2).
Proof.
  intros Hok. unfold run.
  destruct (current_stage (session_state w)) eqn:Hstage.
  - destruct c; simpl; try done.
    destruct (quiz_types !! i); [|done]. by apply start_quiz_dispatch_ok.
  - unfold render_quiz.
    destruct (questions _ !! _) as [q|]; [|done].
    destruct (q_shuffled_options q); [|done].
    destruct c; try done. by apply submit_answer_dispatch_ok.
  - destruct c; simpl; try done. by apply return_to_menu_dispatch_ok.
Qed.

Lemma main_dispatch_ok master c w :
  dispatch_ok (session_state w) →
  dispatch_ok (session_state (main master c w).2).
Proof.
  intros Hok. apply run_dispatch_ok.
  by rewrite initialize_user_database_session.
Qed.

Lemma run_clicks_dispatch_ok cs w :
  dispatch_ok (session_state w) →
  dispatch_ok (session_state (run_clicks cs w)).
Proof.
  revert w. induction cs as [|[master c] cs IH]; intros w Hok; [done|].
  apply IH, main_dispatch_ok, Hok.
Qed.

(** The stage test of [run] is the guard of the handlers: in a session the
    clicks can reach, no execution of the script ends in an exception. *)
Lemma run_never_raises c w e :
  dispatch_ok (session_state w) → (run c w).1 ≠ Raised e.
Proof.
  intros (_ & Hquiz & _ & _ & Hopts). unfold run.
  destruct (current_stage (session_state w)) eqn:Hstage.
  - destruct c; simpl; try done.
    destruct i as [|[|[|i]]]; simpl; try done; unfold start_quiz; simpl;
      by case_decide.
  - unfold render_quiz.
    destruct (lookup_lt_is_Some_2 _ _ (Hquiz eq_refl)) as [q Hq].
    rewrite Hq.
    destruct (proj1 (Forall_lookup _ _) Hopts _ _ Hq) as [options ->].
    destruct c; try done. unfold submit_answer. by rewrite Hq.
  - by destruct c.
Qed.

(** ** Scenarios *)

(** Twelve questions in the master set: the new user's table is a copy of it,
    the quiz of untested questions starts with ten of them, and after ten
    answers two untested questions are left and the score is the number of
    correct submissions. *)
Example scenario_twelve :
  db started = sample_table 12 ∧
  current_stage (session_state started) = Quiz ∧
  length (questions (session_state started)) = 10%nat ∧
  current_stage (session_state played) = Results ∧
  length (matching (filter_option UNASKED) (db played)) = 2%nat ∧
  length (filter (λ r, r_is_correct r = true) (results (session_state played)))
    = 10%nat.
Proof. vm_compute. repeat split. Qed.

(** Five questions in the master set: no quiz can start. *)
Example scenario_five :
  Forall (λ qt,
            (start_quiz sample_keys sample_rnd qt (sample_world 5)).1 = Returned ∧
            session_state (start_quiz sample_keys sample_rnd qt (sample_world 5)).2
              = initial_session)
         quiz_types.
Proof. repeat constructor. Qed.

(** ** The store *)

Lemma where_clause_matches f r :
  where_clause (filter_option f) r = true ↔ matches f r.
Proof.
  destruct f; unfold where_clause; simpl.
  - done.
  - apply bool_decide_eq_true.
  - rewrite andb_true_iff, !bool_decide_eq_true. done.
Qed.

Lemma filter_all {A} (P : A → Prop) `{!∀ x, Decision (P x)} (l : list A) :
  Forall P l → filter P l = l.
Proof.
  induction 1 as [|x l Hx _ IH]; [done|].
  by rewrite filter_cons_True, IH.
Qed.

Lemma filter_none {A} (P : A → Prop) `{!∀ x, Decision (P x)} (l : list A) :
  Forall (λ x, ¬ P x) l → filter P l = [].
Proof.
  induction 1 as [|x l Hx _ IH]; [done|].
  by rewrite filter_cons_False.
Qed.

Lemma reset_lookup (t : gmap Z Row) id :
  (reset_row <$> t) !! id = reset_row <$> t !! id.
Proof. apply lookup_fmap. Qed.

Lemma reset_matching_incorrect (t : gmap Z Row) :
  matching (filter_option INCORRECT) (reset_row <$> t) = [].
Proof.
  apply filter_none, Forall_forall. intros [id r] Hin Hw.
  apply elem_of_map_to_list in Hin. rewrite reset_lookup in Hin.
  apply where_clause_matches in Hw as [Hw _].
  destruct (t !! id); simplify_eq/=.
Qed.

Lemma reset_matching_unasked (t : gmap Z Row) :
  matching (filter_option UNASKED) (reset_row <$> t) =
  map_to_list (reset_row <$> t).
Proof.
  apply filter_all, Forall_forall. intros [id r] Hin.
  apply elem_of_map_to_list in Hin. rewrite reset_lookup in Hin.
  apply where_clause_matches.
  destruct (t !! id); simplify_eq/=. done.
Qed.

Lemma record_answer_lookup id id' is_correct (t : gmap Z Row) :
  record_answer id is_correct t !! id' =
  if decide (id = id') then mark_answered is_correct <$> t !! id'
  else t !! id'.
Proof.
  unfold record_answer. rewrite lookup_alter. by case_decide; simplify_eq.
Qed.

(** Inserting rows with pairwise different keys, none of them in the table,
    raises no [IntegrityError] and adds exactly these rows. *)
Lemma executemany_insert_new (rows : list (Z * Row)) (t : gmap Z Row) :
  NoDup rows.*1 →
  (∀ id, id ∈ rows.*1 → t !! id = None) →
  executemany_insert rows t = Some (list_to_map rows ∪ t).
Proof.
  unfold executemany_insert. revert t.
  induction rows as [|[id r] rows IH]; intros t Hnd Hnew; simpl.
  - by rewrite (left_id_L ∅ (∪)).
  - apply NoDup_cons in Hnd as [Hid Hnd].
    rewrite (Hnew id) by apply list_elem_of_here. simpl.
    rewrite (IH _ Hnd).
    + f_equal. rewrite <- insert_union_l, <- insert_union_r; [done|].
      by apply not_elem_of_list_to_map_1.
    + intros id' Hin. rewrite lookup_insert_ne; [|by intros ->].
      by apply Hnew, list_elem_of_further.
Qed.

Lemma executemany_insert_master (m : gmap Z Row) :
  executemany_insert (map_to_list m) ∅ = Some m.
Proof.
  rewrite executemany_insert_new.
  - by rewrite list_to_map_to_list, (right_id_L ∅ (∪)).
  - apply NoDup_fst_map_to_list.
  - intros. apply lookup_empty.
Qed.

Lemma initialize_user_database_empty m w :
  db w = ∅ →
  initialize_user_database (Some m) w =
  {| db := m; session_state := session_state w; ui := ui w |}.
Proof.
  intros Hempty. unfold initialize_user_database.
  rewrite Hempty, map_size_empty, executemany_insert_master. done.
Qed.

Lemma initialize_user_database_nonempty master w :
  db w ≠ ∅ → initialize_user_database master w = w.
Proof.
  intros Hne. unfold initialize_user_database.
  case_decide as Hsize; [|done]. by apply map_size_empty_iff in Hsize.
Qed.

Lemma initialize_user_database_db master w :
  db (initialize_user_database master w) =
  if decide (db w = ∅) then default ∅ master else db w.
Proof.
  case_decide as Hempty.
  - destruct master as [m|]; simpl.
    + by rewrite initialize_user_database_empty.
    + unfold initialize_user_database.
      by rewrite Hempty, map_size_empty.
  - by rewrite initialize_user_database_nonempty.
Qed.

(** ** The session state machine *)

(** C1. Whatever handlers are called in whatever order on a new session, the
    position equals the number of accumulated results and lies in [0, 10].
    A start for a known quiz type with ten or more matching questions reruns
    with position 0, no answers and no results; a submit that finds a question
    at the current position reruns with exactly one more answer and one more
    result, the result of that question and that answer, and with the
    position advanced by exactly one. *)
Theorem position_invariant :
  (∀ t es, position_inv (session_state (run_events es (fresh t)))) ∧
  (∀ keys rnd qt opt w,
     quiz_option_map qt = Some opt →
     (10 ≤ length (matching opt (db w)))%nat →
     ∃ w', start_quiz keys rnd qt w = (Rerun, w') ∧
           current_question_index (session_state w') = 0%nat ∧
           user_answers (session_state w') = [] ∧
           results (session_state w') = []) ∧
  (∀ user_answer w q,
     questions (session_state w) !! current_question_index (session_state w)
       = Some q →
     ∃ w', submit_answer user_answer w = (Rerun, w') ∧
           results (session_state w') =
             results (session_state w) ++ [judge q user_answer] ∧
           user_answers (session_state w') =
             user_answers (session_state w) ++ [user_answer] ∧
           current_question_index (session_state w') =
             S (current_question_index (session_state w))).
Proof.
  split; [|split].
  - intros t es.
    destruct (run_events_session_ok es (fresh t)) as (Hres & _ & Hle & Hten).
    { apply initial_session_ok. }
    split; [done|lia].
  - intros keys rnd qt opt w Hopt Hn.
    destruct (start_quiz_cases keys rnd qt w)
      as [[Hnone _]|[(opt' & Hopt' & Hlt & _)|(opt' & _ & _ & Heq)]].
    + congruence.
    + assert (opt' = opt) as -> by congruence. lia.
    + eexists. split; [exact Heq|]. done.
  - intros user_answer w q Hq. unfold submit_answer. rewrite Hq.
    eexists. split; [done|]. done.
Qed.

Lemma position_invariant_witness :
  position_inv
    (session_state
       (run_events [EvStart sample_keys sample_rnd "Random Quiz";
                    EvSubmit (Some "a"); EvReturn; EvReset]
          (fresh (sample_table 12)))) ∧
  (∃ w', start_quiz sample_keys sample_rnd "Untested Questions Quiz"
           (fresh (sample_table 12)) = (Rerun, w') ∧
         current_question_index (session_state w') = 0%nat) ∧
  (∃ w', submit_answer (Some "b") started = (Rerun, w') ∧
         current_question_index (session_state w') = 1%nat ∧
         length (results (session_state w')) = 1%nat).
Proof.
  destruct position_invariant as (Hinv & Hstart & Hsubmit).
  split; [apply Hinv|]. split.
  - destruct (Hstart sample_keys sample_rnd "Untested Questions Quiz" 2
                (fresh (sample_table 12))) as (w' & Heq & Hidx & _).
    + reflexivity.
    + vm_compute. lia.
    + exists w'. split; [exact Heq|exact Hidx].
  - edestruct (Hsubmit (Some "b") started) as (w' & Heq & Hres & _ & Hidx).
    { vm_compute. reflexivity. }
    exists w'. split; [exact Heq|]. split.
    + rewrite Hidx. vm_compute. reflexivity.
    + rewrite Hres, length_app. vm_compute. reflexivity.
Defined.

(** C2. For each of the three filters the query returns at most ten
    questions, each of them a row of the table that satisfies the filter's
    predicate, and no id twice. *)
Theorem query_sound (f : Filter) (keys : nat → Z) (t : gmap Z Row) :
  (length (get_random_questions keys (filter_option f) t) ≤ 10)%nat ∧
  (∀ q, q ∈ get_random_questions keys (filter_option f) t →
        ∃ r, t !! q_id q = Some r ∧ matches f r ∧ q = to_dict (q_id q, r)) ∧
  NoDup (q_id <$> get_random_questions keys (filter_option f) t).
Proof.
  split; [|split].
  - rewrite get_random_questions_length. lia.
  - intros q (r & Hr & Hw & Hq)%get_random_questions_elem.
    exists r. by rewrite <- where_clause_matches.
  - apply get_random_questions_NoDup.
Qed.

(** C3. A known quiz type whose filter matches fewer than ten questions makes
    [start_quiz] report the error and return with table and session as they
    were; with ten or more it enters the Quiz stage with a batch of exactly
    ten, at position 0 with no answers and no results. *)
Theorem start_quiz_needs_ten keys rnd qt opt w :
  quiz_option_map qt = Some opt →
  ((length (matching opt (db w)) < 10)%nat →
   start_quiz keys rnd qt w =
     (Returned, {| db := db w; session_state := session_state w;
                   ui := ui w ++ [not_enough qt] |})) ∧
  ((10 ≤ length (matching opt (db w)))%nat →
   ∃ batch, length batch = 10%nat ∧
     start_quiz keys rnd qt w =
       (Rerun, {| db := db w;
                  session_state :=
                    {| current_stage := Quiz;
                       quiz_type := Some qt;
                       questions := batch;
                       current_question_index := 0;
                       user_answers := [];
                       results := [] |};
                  ui := ui w |})).
Proof.
  intros Hopt.
  destruct (start_quiz_cases keys rnd qt w)
    as [[Hnone _]|[(opt' & Hopt' & Hn & Heq)|(opt' & Hopt' & Hn & Heq)]];
    simplify_eq; (split; [intros Hlt|intros Hge]); try lia; try done.
  eexists. split; [|done]. by apply start_quiz_batch.
Qed.

Lemma start_quiz_needs_ten_witness :
  start_quiz sample_keys sample_rnd "Untested Questions Quiz" (sample_world 5) =
    (Returned,
     {| db := sample_table 5; session_state := initial_session;
        ui := [not_enough "Untested Questions Quiz"] |}).
Proof.
  apply (proj1 (start_quiz_needs_ten sample_keys sample_rnd
                  "Untested Questions Quiz" 2 (sample_world 5) eq_refl)).
  vm_compute. lia.
Defined.

(** C4 (as the program has it). In every session the clicks can reach, the
    "Return to Menu" button of the Results stage sets the stage to Menu and
    nothing else: the batch of ten, the ten answers, the ten results, the
    position and the quiz-type label stay as they were, and so does the
    table. *)
Theorem return_to_menu_keeps_session cs t :
  current_stage (session_state (run_clicks cs (fresh t))) = Results →
  ∃ s',
    return_to_menu (run_clicks cs (fresh t)) =
      (Rerun, {| db := db (run_clicks cs (fresh t));
                 session_state := s';
                 ui := ui (run_clicks cs (fresh t)) |}) ∧
    current_stage s' = Menu ∧
    quiz_type s' = quiz_type (session_state (run_clicks cs (fresh t))) ∧
    questions s' = questions (session_state (run_clicks cs (fresh t))) ∧
    user_answers s' = user_answers (session_state (run_clicks cs (fresh t))) ∧
    results s' = results (session_state (run_clicks cs (fresh t))) ∧
    length (questions s') = 10%nat ∧
    length (user_answers s') = 10%nat ∧
    length (results s') = 10%nat ∧
    current_question_index s' = 10%nat.
Proof.
  intros Hstage.
  destruct (run_clicks_dispatch_ok cs (fresh t) initial_session_ok)
    as ((Hres & Hans & Hle & _) & _ & Hother & Hten & _).
  eexists. split; [done|]. simpl.
  assert (length (questions (session_state (run_clicks cs (fresh t)))) = 10%nat)
    as Hlen by (apply Hten; congruence).
  assert (length (questions (session_state (run_clicks cs (fresh t))))
            ≤ current_question_index (session_state (run_clicks cs (fresh t))))%nat
    by (apply Hother; congruence).
  repeat split; lia.
Qed.

Lemma return_to_menu_keeps_session_witness :
  current_stage (session_state played) = Results ∧
  length (results (session_state (return_to_menu played).2)) = 10%nat.
Proof.
  assert (current_stage (session_state played) = Results) as Hstage
    by (vm_compute; reflexivity).
  split; [exact Hstage|].
  destruct (return_to_menu_keeps_session played_clicks ∅ Hstage)
    as (s' & Heq & _ & _ & _ & _ & _ & _ & _ & Hlen & _).
  unfold played. rewrite Heq. exact Hlen.
Defined.

(** C4 (as stated) fails on the session of a user who has just answered the
    ten questions of a quiz: after "Return to Menu" batch, answers, results
    and label are still there. *)
Lemma return_discards_counterexample : ¬ return_discards played.
Proof.
  intros (_ & _ & _ & Hres & _). vm_compute in Hres. discriminate Hres.
Qed.

(** C5. When the batch has a question at the current position,
    [submit_answer] appends a result with that question's text, its stored
    answer, the submitted answer and a flag that is true exactly when the
    submitted answer equals the stored one. *)
Theorem submit_answer_judges user_answer w q :
  questions (session_state w) !! current_question_index (session_state w)
    = Some q →
  ∃ is_correct w',
    (is_correct = true ↔ user_answer = q_answer q) ∧
    submit_answer user_answer w = (Rerun, w') ∧
    results (session_state w') =
      results (session_state w) ++
        [{| r_question := q_question q;
            r_correct_answer := q_answer q;
            r_user_answer := user_answer;
            r_is_correct := is_correct |}].
Proof.
  intros Hq. exists (bool_decide (user_answer = q_answer q)).
  unfold submit_answer. rewrite Hq. eexists.
  split; [apply bool_decide_eq_true|]. split; done.
Qed.

Lemma submit_answer_judges_witness :
  ∃ w', submit_answer (Some "b") started = (Rerun, w') ∧
        r_is_correct <$> last (results (session_state w')) = Some false.
Proof.
  edestruct (submit_answer_judges (Some "b") started)
    as (is_correct & w' & Hiff & Heq & Hres).
  { vm_compute. reflexivity. }
  exists w'. split; [exact Heq|].
  rewrite Hres, last_snoc. simpl. f_equal.
  destruct is_correct; [|reflexivity].
  destruct Hiff as [Hiff _]. discriminate (Hiff eq_refl).
Defined.

(** C6. The update of [submit_answer] sets [has_asked] to 1 and
    [user_answered_correctly] to the correctness flag in the row of the given
    id, keeps question text, options and answer of that row, adds or removes
    no row and leaves every other row as it was; [submit_answer] applies it to
    the id of the current question with the flag it computed. *)
Theorem record_answer_frame :
  (∀ id is_correct (t : gmap Z Row) id',
     record_answer id is_correct t !! id' =
       if decide (id = id') then mark_answered is_correct <$> t !! id'
       else t !! id') ∧
  (∀ is_correct r,
     has_asked (mark_answered is_correct r) = 1 ∧
     user_answered_correctly (mark_answered is_correct r) = sql_bool is_correct ∧
     same_content r (mark_answered is_correct r)) ∧
  (∀ id is_correct (t : gmap Z Row),
     dom (record_answer id is_correct t) = dom t) ∧
  (∀ user_answer w q,
     questions (session_state w) !! current_question_index (session_state w)
       = Some q →
     db (submit_answer user_answer w).2 =
       record_answer (q_id q) (bool_decide (user_answer = q_answer q)) (db w)).
Proof.
  split; [|split; [|split]].
  - intros id is_correct t id'. apply record_answer_lookup.
  - intros is_correct r. by repeat split.
  - intros id is_correct t. apply dom_alter_L.
  - intros user_answer w q Hq. unfold submit_answer. by rewrite Hq.
Qed.

Lemma record_answer_frame_witness :
  (has_asked <$> db (submit_answer (Some "b") started).2 !! 1) = Some 1 ∧
  (user_answered_correctly <$> db (submit_answer (Some "b") started).2 !! 1)
    = Some 0 ∧
  db (submit_answer (Some "b") started).2 !! 4 = db started !! 4.
Proof.
  destruct record_answer_frame as (Hlookup & _ & _ & Hsubmit).
  rewrite (Hsubmit (Some "b") started
             (mkQDict 1 (Some "q") (Some "a") (Some "b") (Some "c") None None
                (Some "a") (Some [Some "c"; Some "b"; None; None; Some "a"])))
    by (vm_compute; reflexivity).
  rewrite !Hlookup. vm_compute. repeat split.
Defined.

(** C7. In a batch that [start_quiz] has started, every question comes from a
    row of the table, its shuffled options are a permutation of that row's
    five stored options, so the stored answer occurs among them as often as
    among the stored ones (once, when the row has it once); the question keeps
    the stored order beside the shuffled one, and the table is the one
    [start_quiz] found. *)
Theorem start_quiz_shuffles keys rnd qt w w' :
  start_quiz keys rnd qt w = (Rerun, w') →
  db w' = db w ∧
  ∀ q, q ∈ questions (session_state w') →
    ∃ r options,
      db w' !! q_id q = Some r ∧
      q_shuffled_options q = Some options ∧
      options ≡ₚ row_options r ∧
      stored_options q = row_options r ∧
      q_answer q = answer r ∧
      occurrences (answer r) options = occurrences (answer r) (row_options r) ∧
      (occurrences (answer r) (row_options r) = 1%nat ↔
       occurrences (answer r) options = 1%nat).
Proof.
  intros Hstart.
  destruct (start_quiz_cases keys rnd qt w)
    as [[_ Heq]|[(opt & _ & _ & Heq)|(opt & _ & _ & Heq)]];
    rewrite Heq in Hstart; simplify_eq.
  split; [done|]. simpl.
  intros q (q0 & Hq0 & options & -> & Hperm)%shuffle_each_elem.
  apply get_random_questions_elem in Hq0 as (r & Hr & _ & Hq0).
  exists r, options.
  assert (stored_options q0 = row_options r) as Hstored by (by rewrite Hq0).
  assert (q_answer q0 = answer r) as Hanswer by (by rewrite Hq0).
  assert (occurrences (answer r) options
          = occurrences (answer r) (row_options r)) as Hocc.
  { unfold occurrences. by rewrite Hperm, Hstored. }
  repeat split; simpl; try done.
  - by rewrite <- Hstored.
  - by rewrite Hocc.
  - by rewrite Hocc.
Qed.

Lemma start_quiz_shuffles_witness :
  Forall (λ q, ∃ options, q_shuffled_options q = Some options ∧
                          options ≡ₚ stored_options q)
         (questions (session_state started)).
Proof.
  apply Forall_forall. intros q Hq.
  destruct (start_quiz_shuffles sample_keys sample_rnd "Untested Questions Quiz"
              (fresh (sample_table 12)) started) as [_ Hall].
  { vm_compute. reflexivity. }
  destruct (Hall q Hq) as (r & options & _ & Hsh & Hperm & Hst & _).
  exists options. split; [exact Hsh|]. rewrite Hst. exact Hperm.
Defined.

(** C8 (as the program has it). After [reset_all_questions] every row has
    both flags 0 and its other columns as before; a following query for the
    incorrect questions is empty, and a following query for the untested
    ones returns the first ten of a random ordering of all the user's
    questions: all of them when there are at most ten, ten of them
    otherwise. *)
Theorem reset_all_then_query keys w :
  (∀ id, db (reset_all_questions w).2 !! id = reset_row <$> db w !! id) ∧
  (∀ r, has_asked (reset_row r) = 0 ∧ user_answered_correctly (reset_row r) = 0 ∧
        same_content r (reset_row r)) ∧
  get_random_questions keys (filter_option INCORRECT)
    (db (reset_all_questions w).2) = [] ∧
  (∃ l, l ≡ₚ (map_to_list (db w)).*1 ∧
        q_id <$> get_random_questions keys (filter_option UNASKED)
                   (db (reset_all_questions w).2) = take 10 l) ∧
  length (get_random_questions keys (filter_option UNASKED)
            (db (reset_all_questions w).2)) = (size (db w) `min` 10)%nat.
Proof.
  change (db (reset_all_questions w).2) with (reset_row <$> db w).
  split; [|split; [|split; [|split]]].
  - intros id. apply reset_lookup.
  - intros r. by repeat split.
  - unfold get_random_questions. by rewrite reset_matching_incorrect.
  - destruct (get_random_questions_ids keys (filter_option UNASKED)
                (reset_row <$> db w)) as (l & Hl & ->).
    exists l.*1. split.
    + rewrite Hl, reset_matching_unasked, map_to_list_fmap.
      rewrite <- list_fmap_compose.
      by rewrite (list_fmap_ext (fst ∘ prod_map id reset_row) fst
                    (map_to_list (db w))) by (by intros ? []).
    + by rewrite to_dict_id, fmap_take.
  - rewrite get_random_questions_length, reset_matching_unasked.
    by rewrite length_map_to_list, map_size_fmap.
Qed.

(** C8 (as stated) fails for a user with eleven questions: after a reset the
    query for untested questions returns ten of them, not the full set. *)
Lemma reset_returns_full_set_counterexample :
  ¬ reset_returns_full_set sample_keys (sample_world 11).
Proof.
  intros Hfull. apply Permutation_length in Hfull.
  vm_compute in Hfull. discriminate Hfull.
Qed.

(** C9. On an empty user table [initialize_user_database] makes the table
    equal to the master table, ids, texts and flags included; on a table that
    has a row it changes nothing, whatever the master is; so a second call
    never changes the table the first one left. *)
Theorem initialize_user_database_seeds_once :
  (∀ m w, db w = ∅ →
     initialize_user_database (Some m) w =
       {| db := m; session_state := session_state w; ui := ui w |}) ∧
  (∀ master w, db w ≠ ∅ → initialize_user_database master w = w) ∧
  (∀ master w,
     db (initialize_user_database master (initialize_user_database master w))
     = db (initialize_user_database master w)).
Proof.
  split; [|split].
  - apply initialize_user_database_empty.
  - apply initialize_user_database_nonempty.
  - intros master w. rewrite (initialize_user_database_db master (initialize_user_database _ _)).
    case_decide as Hempty; [|done].
    rewrite initialize_user_database_db in Hempty |- *.
    case_decide; congruence.
Qed.

Lemma initialize_user_database_seeds_once_witness :
  db (initialize_user_database (Some (sample_table 12)) (fresh ∅))
    = sample_table 12 ∧
  initialize_user_database (Some (sample_table 5)) (sample_world 12)
    = sample_world 12.
Proof.
  destruct initialize_user_database_seeds_once as (Hempty & Hfull & _).
  split.
  - rewrite Hempty; reflexivity.
  - apply Hfull. intros Heq.
    apply (f_equal (λ t : gmap Z Row, size t)) in Heq.
    vm_compute in Heq. discriminate Heq.
Defined.

(** C10 (as the program has it). [submit_answer] has no guard of its own.
    In any session whose position has reached the length of the batch,
    indexing the batch raises [IndexError]; the exception comes before
    anything is modified, so session, table and messages are as they were.
    The stage is never looked at: whenever the batch has a question at the
    position the submit is processed, whatever the stage.  The stage test is
    the one of [run]: in a session the clicks can reach, a stage other than
    Quiz means that the position has reached the length of the batch, so
    there a submit outside Quiz raises [IndexError] and changes nothing. *)
Theorem submit_answer_unguarded :
  (∀ user_answer w,
     (length (questions (session_state w))
        ≤ current_question_index (session_state w))%nat →
     submit_answer user_answer w = (Raised IndexError, w)) ∧
  (∀ user_answer w q,
     questions (session_state w) !! current_question_index (session_state w)
       = Some q →
     ∃ w', submit_answer user_answer w = (Rerun, w') ∧
           current_question_index (session_state w')
             = S (current_question_index (session_state w)) ∧
           results (session_state w')
             = results (session_state w) ++ [judge q user_answer]) ∧
  (∀ cs t user_answer,
     current_stage (session_state (run_clicks cs (fresh t))) ≠ Quiz ∨
     current_question_index (session_state (run_clicks cs (fresh t)))
       = length (questions (session_state (run_clicks cs (fresh t)))) →
     submit_answer user_answer (run_clicks cs (fresh t))
       = (Raised IndexError, run_clicks cs (fresh t))).
Proof.
  split; [|split].
  - intros user_answer w. apply submit_answer_raises.
  - intros user_answer w q Hq. unfold submit_answer. rewrite Hq.
    eexists. split; [done|]. done.
  - intros cs t user_answer Hinvalid. apply submit_answer_raises.
    destruct (run_clicks_dispatch_ok cs (fresh t) initial_session_ok)
      as (_ & _ & Hother & _).
    destruct Hinvalid as [Hstage| ->]; [by apply Hother|done].
Qed.

Lemma submit_answer_unguarded_witness :
  submit_answer (Some "a") played = (Raised IndexError, played) ∧
  submit_answer (Some "a") (fresh (sample_table 12))
    = (Raised IndexError, fresh (sample_table 12)) ∧
  (submit_answer (Some "a")
     (run_events [EvStart sample_keys sample_rnd "Random Quiz"; EvReturn]
        (fresh (sample_table 12)))).1 = Rerun.
Proof.
  destruct submit_answer_unguarded as (Hge & Hprocessed & Hreach).
  split; [|split].
  - apply (Hreach played_clicks ∅ (Some "a")). left. vm_compute. discriminate.
  - apply Hge. simpl. lia.
  - edestruct (Hprocessed (Some "a")
                 (run_events [EvStart sample_keys sample_rnd "Random Quiz";
                              EvReturn] (fresh (sample_table 12))))
      as (w' & Heq & _).
    { vm_compute. reflexivity. }
    by rewrite Heq.
Defined.

(** C10 (as stated) fails on the session of a user who has just answered the
    ten questions of a quiz: one more submit indexes the batch at position 10
    and raises [IndexError]. *)
Lemma submit_guarded_counterexample : ¬ submit_guarded (Some "a") played.
Proof.
  intros [Hraise _]. apply Hraise. vm_compute. reflexivity.
Qed.

(** ** Further properties of the session *)

Lemma quiz_option_map_None qt : quiz_option_map qt = None ↔ qt ∉ quiz_types.
Proof.
  unfold quiz_option_map, quiz_types.
  rewrite !not_elem_of_cons.
  repeat case_decide; (split; intros Hn); try discriminate Hn;
    try (destruct Hn as (? & ? & ? & _); contradiction); try reflexivity.
  repeat split; try assumption. apply not_elem_of_nil.
Qed.

Lemma zip_with_snoc {A B C} (f : A → B → C) (l : list A) (k : list B) x y :
  l !! length k = Some x → zip_with f l (k ++ [y]) = zip_with f l k ++ [f x y].
Proof.
  revert l. induction k as [|b k IH]; intros [|a l] Hx; simplify_eq/=.
  - by rewrite zip_with_nil_r.
  - f_equal. by apply IH.
Qed.

Lemma start_quiz_judged keys rnd qt w :
  judged (session_state w) → judged (session_state (start_quiz keys rnd qt w).2).
Proof.
  intros Hj.
  destruct (start_quiz_cases keys rnd qt w)
    as [[_ ->]|[(opt & _ & _ & ->)|(opt & _ & _ & ->)]]; [done..|].
  unfold judged; simpl. by rewrite zip_with_nil_r.
Qed.

Lemma submit_answer_judged user_answer w :
  session_ok (session_state w) → judged (session_state w) →
  judged (session_state (submit_answer user_answer w).2).
Proof.
  intros (_ & Hans & _) Hj. unfold submit_answer.
  destruct (questions _ !! _) as [q|] eqn:Hq; [|done].
  unfold judged; simpl. rewrite <- Hans in Hq.
  by rewrite (zip_with_snoc _ _ _ _ _ Hq), <- Hj.
Qed.

Lemma handle_judged e w :
  session_ok (session_state w) → judged (session_state w) →
  judged (session_state (handle e w).2).
Proof.
  intros Hok Hj. destruct e; simpl.
  - by apply start_quiz_judged.
  - by apply submit_answer_judged.
  - done.
  - done.
  - by rewrite initialize_user_database_session.
Qed.

Lemma run_events_judged es w :
  session_ok (session_state w) → judged (session_state w) →
  judged (session_state (run_events es w)).
Proof.
  revert w. induction es as [|e es IH]; intros w Hok Hj; [done|].
  apply IH; [by apply handle_session_ok|by apply handle_judged].
Qed.

Lemma score_length rs :
  score rs = length (filter (λ r, r_is_correct r = true) rs).
Proof.
  unfold score. induction (filter _ rs) as [|r l IH]; [done|].
  simpl. by rewrite <- IH.
Qed.

Lemma score_judge qs answers :
  score (zip_with judge qs answers) =
  length (filter (λ qa, qa.2 = q_answer qa.1) (zip qs answers)).
Proof.
  rewrite score_length. revert answers.
  induction qs as [|q qs IH]; intros [|a answers]; try done.
  simpl. rewrite !filter_cons. simpl.
  destruct (decide (a = q_answer q)) as [Heq|Hne].
  - rewrite (bool_decide_eq_true_2 _ Heq).
    rewrite decide_True by done. simpl. by rewrite IH.
  - rewrite (bool_decide_eq_false_2 _ Hne).
    rewrite decide_False by done. apply IH.
Qed.

(** X1. No execution of the script ends in an exception, whatever the user
    clicked before and clicks now: the stage test of [run] keeps every
    handler away from a session it cannot handle. *)
Theorem script_run_never_raises cs t master c e :
  (main master c (run_clicks cs (fresh t))).1 ≠ Raised e.
Proof.
  unfold main. apply run_never_raises.
  rewrite initialize_user_database_session.
  apply run_clicks_dispatch_ok, initial_session_ok.
Qed.

(** X2. [start_quiz] raises [KeyError] exactly for a quiz type that is none
    of the three labels of the menu, and then leaves table, session and
    messages as they were. *)
Theorem start_quiz_key_error keys rnd qt w :
  (qt ∉ quiz_types ↔ (start_quiz keys rnd qt w).1 = Raised KeyError) ∧
  (qt ∉ quiz_types ↔ start_quiz keys rnd qt w = (Raised KeyError, w)).
Proof.
  rewrite <- quiz_option_map_None.
  destruct (start_quiz_cases keys rnd qt w)
    as [[Hnone Heq]|[(opt & Hopt & _ & Heq)|(opt & Hopt & _ & Heq)]];
    rewrite Heq; simpl; split; split; try done; congruence.
Qed.

(** X3. After any sequence of handler calls on a new session, the list of
    results is the batch judged against the list of submitted answers,
    position by position: text and stored answer of the question, the answer
    given, and whether the two are equal. *)
Theorem results_are_judged_answers t es :
  results (session_state (run_events es (fresh t))) =
  zip_with judge (questions (session_state (run_events es (fresh t))))
                 (user_answers (session_state (run_events es (fresh t)))).
Proof.
  apply run_events_judged; [apply initial_session_ok|].
  unfold judged. simpl. done.
Qed.

(** X4. The score shown on the results page is the number of positions at
    which the submitted answer equals the stored answer of the question; it
    never exceeds the position, which never exceeds 10. *)
Theorem score_counts_correct t es :
  score (results (session_state (run_events es (fresh t)))) =
    length (filter (λ qa, qa.2 = q_answer qa.1)
              (zip (questions (session_state (run_events es (fresh t))))
                   (user_answers (session_state (run_events es (fresh t)))))) ∧
  (score (results (session_state (run_events es (fresh t))))
     ≤ current_question_index (session_state (run_events es (fresh t))))%nat ∧
  (current_question_index (session_state (run_events es (fresh t))) ≤ 10)%nat.
Proof.
  destruct (run_events_session_ok es (fresh t)) as (Hres & _ & Hle & Hten).
  { apply initial_session_ok. }
  split; [|split; [|lia]].
  - rewrite (run_events_judged es (fresh t)); [apply score_judge| |done].
    apply initial_session_ok.
  - rewrite score_length, Hres. apply length_filter.
Qed.

Lemma submit_answer_session user_answer w q :
  questions (session_state w) !! current_question_index (session_state w)
    = Some q →
  session_state (submit_answer user_answer w).2 =
    {| current_stage :=
         if decide (length (questions (session_state w))
                      ≤ S (current_question_index (session_state w)))%nat
         then Results else current_stage (session_state w);
       quiz_type := quiz_type (session_state w);
       questions := questions (session_state w);
       current_question_index := S (current_question_index (session_state w));
       user_answers := user_answers (session_state w) ++ [user_answer];
       results := results (session_state w) ++ [judge q user_answer] |}.
Proof. intros Hq. unfold submit_answer. by rewrite Hq. Qed.

Lemma submits_advance answers w :
  current_stage (session_state w) = Quiz →
  (current_question_index (session_state w) + length answers
     ≤ length (questions (session_state w)))%nat →
  (current_question_index (session_state w)
     < length (questions (session_state w)))%nat →
  questions (session_state (run_events (EvSubmit <$> answers) w))
    = questions (session_state w) ∧
  current_question_index (session_state (run_events (EvSubmit <$> answers) w))
    = (current_question_index (session_state w) + length answers)%nat ∧
  user_answers (session_state (run_events (EvSubmit <$> answers) w))
    = user_answers (session_state w) ++ answers ∧
  current_stage (session_state (run_events (EvSubmit <$> answers) w))
    = if decide (current_question_index (session_state w) + length answers
                 = length (questions (session_state w)))%nat
      then Results else Quiz.
Proof.
  revert w. induction answers as [|a answers IH]; intros w Hstage Hle Hlt.
  - simpl. rewrite Nat.add_0_r, (right_id_L [] (++)).
    rewrite decide_False by lia. done.
  - destruct (lookup_lt_is_Some_2 _ _ Hlt) as [q Hq].
    pose proof (submit_answer_session a w q Hq) as Hs.
    change (run_events (EvSubmit <$> a :: answers) w)
      with (run_events (EvSubmit <$> answers) (submit_answer a w).2).
    simpl in Hle. set (w' := (submit_answer a w).2) in *.
    destruct (decide (answers = [])) as [->|Hne].
    + simpl. rewrite Hs. simpl. rewrite Hstage.
      repeat split; try lia.
      repeat case_decide; try done; lia.
    + assert (0 < length answers)%nat as Hpos
        by (destruct answers; simpl; [done|lia]).
      destruct (IH w') as (Hqs & Hidx & Hans & Hst).
      * rewrite Hs. simpl. rewrite decide_False by lia. done.
      * rewrite Hs. simpl. lia.
      * rewrite Hs. simpl. lia.
      * rewrite Hs in Hqs, Hidx, Hans, Hst.
        cbn [questions current_question_index user_answers current_stage]
          in Hqs, Hidx, Hans, Hst.
        rewrite Hqs, Hidx, Hans, Hst, <- (assoc_L (++)).
        cbn [length]. repeat split; try done; try lia.
        repeat case_decide; try done; lia.
Qed.

(** X5. A quiz that has started takes exactly ten submits: after [k <= 10]
    answers the position is [k], the answers are the ones submitted, in
    order, there are [k] results, and the stage is Quiz for [k < 10] and
    Results for [k = 10]. *)
Theorem quiz_takes_ten_submits keys rnd qt w w1 answers :
  start_quiz keys rnd qt w = (Rerun, w1) →
  (length answers ≤ 10)%nat →
  current_question_index
    (session_state (run_events (EvSubmit <$> answers) w1)) = length answers ∧
  user_answers (session_state (run_events (EvSubmit <$> answers) w1))
    = answers ∧
  length (results (session_state (run_events (EvSubmit <$> answers) w1)))
    = length answers ∧
  current_stage (session_state (run_events (EvSubmit <$> answers) w1))
    = if decide (length answers = 10)%nat then Results else Quiz.
Proof.
  intros Hstart Hlen.
  destruct (start_quiz_cases keys rnd qt w)
    as [[_ Heq]|[(opt & _ & _ & Heq)|(opt & _ & Hn & Heq)]];
    rewrite Heq in Hstart; simplify_eq.
  pose proof (start_quiz_batch keys rnd opt (db w) Hn) as Hten.
  match goal with |- context [run_events _ ?w0] => set (w1 := w0) end.
  assert (session_ok (session_state w1)) as Hok.
  { unfold session_ok; simpl. lia. }
  destruct (submits_advance answers w1) as (Hqs & Hidx & Hans & Hst);
    [done|simpl; lia|simpl; lia|].
  destruct (run_events_session_ok (EvSubmit <$> answers) w1 Hok)
    as (Hres & _).
  simpl in Hqs, Hidx, Hans, Hst. rewrite Hten in Hst.
  rewrite <- Hres, Hidx, Hans, Hst. done.
Qed.

Lemma quiz_takes_ten_submits_witness :
  current_stage
    (session_state (run_events (EvSubmit <$> replicate 10 (Some "a")) started))
  = Results.
Proof.
  destruct (quiz_takes_ten_submits sample_keys sample_rnd
              "Untested Questions Quiz" (fresh (sample_table 12)) started
              (replicate 10 (Some "a"))) as (_ & _ & _ & Hstage).
  - vm_compute. reflexivity.
  - simpl. lia.
  - exact Hstage.
Defined.

(** ** Further properties of the store *)

Lemma reset_row_idemp r : reset_row (reset_row r) = reset_row r.
Proof. done. Qed.

Lemma reset_record_answer id is_correct (t : gmap Z Row) :
  reset_row <$> record_answer id is_correct t = reset_row <$> t.
Proof.
  apply map_eq. intros id'.
  rewrite !lookup_fmap, record_answer_lookup.
  case_decide; [|done]. by destruct (t !! id').
Qed.

Lemma reset_reset (t : gmap Z Row) :
  reset_row <$> (reset_row <$> t) = reset_row <$> t.
Proof.
  apply map_eq. intros id. rewrite !lookup_fmap. by destruct (t !! id).
Qed.

Lemma start_quiz_db keys rnd qt w : db (start_quiz keys rnd qt w).2 = db w.
Proof.
  by destruct (start_quiz_cases keys rnd qt w)
    as [[_ ->]|[(opt & _ & _ & ->)|(opt & _ & _ & ->)]].
Qed.

Lemma handle_reset_db e w :
  db w ≠ ∅ → reset_row <$> db (handle e w).2 = reset_row <$> db w.
Proof.
  intros Hne. destruct e; simpl.
  - by rewrite start_quiz_db.
  - unfold submit_answer. destruct (questions _ !! _); [|done].
    apply reset_record_answer.
  - done.
  - apply reset_reset.
  - by rewrite initialize_user_database_nonempty.
Qed.

Lemma run_events_reset_db es w :
  db w ≠ ∅ → reset_row <$> db (run_events es w) = reset_row <$> db w.
Proof.
  revert w. induction es as [|e es IH]; intros w Hne; [done|].
  pose proof (handle_reset_db e w Hne) as Hstep.
  change (run_events (e :: es) w) with (run_events es (handle e w).2).
  rewrite IH; [done|]. intros Hempty. apply Hne.
  rewrite Hempty, fmap_empty in Hstep. symmetry in Hstep.
  by apply fmap_empty_inv in Hstep.
Qed.

(** X6. Once the user's table has rows, no sequence of handler calls adds or
    removes a row or changes the question text, the options or the answer of
    one: only the two flags ever change, so a reset always gives the table a
    reset of the original table gives. *)
Theorem session_only_changes_flags t es :
  t ≠ ∅ →
  reset_row <$> db (run_events es (fresh t)) = reset_row <$> t ∧
  dom (db (run_events es (fresh t))) = dom t ∧
  ∀ id r', db (run_events es (fresh t)) !! id = Some r' →
           ∃ r, t !! id = Some r ∧ same_content r r'.
Proof.
  intros Hne.
  pose proof (run_events_reset_db es (fresh t) Hne) as Hreset.
  change (db (fresh t)) with t in Hreset.
  split; [done|]. split.
  - rewrite <- (dom_fmap_L reset_row (db _)), Hreset. apply dom_fmap_L.
  - intros id r' Hr'.
    apply (f_equal (λ m : gmap Z Row, m !! id)) in Hreset.
    rewrite !lookup_fmap, Hr' in Hreset.
    destruct (t !! id) as [r|]; [|done].
    exists r. split; [done|]. simpl in Hreset.
    injection Hreset as Hq H1 H2 H3 H4 H5 Ha.
    unfold same_content, row_options. by rewrite Hq, H1, H2, H3, H4, H5, Ha.
Qed.

Lemma session_only_changes_flags_witness :
  dom (db played) = dom (sample_table 12).
Proof.
  assert (sample_table 12 ≠ ∅) as Hne.
  { intros Heq. apply (f_equal (λ t : gmap Z Row, size t)) in Heq.
    vm_compute in Heq. discriminate Heq. }
  destruct (session_only_changes_flags (sample_table 12)
              (EvStart sample_keys sample_rnd "Untested Questions Quiz"
                 :: replicate 10 (EvSubmit (Some "a"))) Hne) as (_ & Hdom & _).
  etrans; [|exact Hdom]. apply (f_equal dom). vm_compute. reflexivity.
Defined.

(** X7. A question that has just been answered is no longer untested: no
    query for untested questions returns it; a query for incorrect questions
    cannot return it when the answer was right, and its row is among the
    incorrect ones when the answer was wrong. *)
Theorem answered_question_not_untested keys user_answer w q :
  questions (session_state w) !! current_question_index (session_state w)
    = Some q →
  (q_id q ∉ q_id <$> get_random_questions keys (filter_option UNASKED)
                       (db (submit_answer user_answer w).2)) ∧
  (user_answer = q_answer q →
   q_id q ∉ q_id <$> get_random_questions keys (filter_option INCORRECT)
                       (db (submit_answer user_answer w).2)) ∧
  (user_answer ≠ q_answer q →
   ∀ r, db w !! q_id q = Some r →
        (q_id q, mark_answered false r)
          ∈ matching (filter_option INCORRECT)
              (db (submit_answer user_answer w).2)).
Proof.
  intros Hq.
  assert (db (submit_answer user_answer w).2 =
          record_answer (q_id q) (bool_decide (user_answer = q_answer q)) (db w))
    as -> by (unfold submit_answer; by rewrite Hq).
  split; [|split].
  - intros (q' & Hid & Hin)%list_elem_of_fmap.
    apply get_random_questions_elem in Hin as (r' & Hr' & Hw & _).
    rewrite <- Hid, record_answer_lookup, decide_True in Hr' by done.
    apply where_clause_matches in Hw.
    destruct (db w !! q_id q); simplify_eq/=.
  - intros Heq (q' & Hid & Hin)%list_elem_of_fmap.
    apply get_random_questions_elem in Hin as (r' & Hr' & Hw & _).
    rewrite <- Hid, record_answer_lookup, decide_True in Hr' by done.
    apply where_clause_matches in Hw as [_ Hw].
    rewrite (bool_decide_eq_true_2 _ Heq) in Hr'.
    destruct (db w !! q_id q); simplify_eq/=.
  - intros Hne r Hr. apply matching_elem.
    rewrite record_answer_lookup, decide_True, Hr by done.
    by rewrite (bool_decide_eq_false_2 _ Hne).
Qed.

Lemma answered_question_not_untested_witness :
  1 ∉ q_id <$> get_random_questions sample_keys (filter_option UNASKED)
                 (db (submit_answer (Some "b") started).2).
Proof.
  destruct (answered_question_not_untested sample_keys (Some "b") started
              (mkQDict 1 (Some "q") (Some "a") (Some "b") (Some "c") None None
                 (Some "a") (Some [Some "c"; Some "b"; None; None; Some "a"])))
    as [Hgone _].
  - vm_compute. reflexivity.
  - exact Hgone.
Defined.

Lemma matching_length opt (t : gmap Z Row) :
  (length (matching opt t) ≤ size t)%nat.
Proof.
  unfold matching. rewrite <- (length_map_to_list t). apply length_filter.
Qed.

Lemma matching_other_option opt (t : gmap Z Row) :
  opt ∉ [1; 2; 3] → matching opt t = [].
Proof.
  rewrite !not_elem_of_cons. intros (? & ? & ? & _).
  apply filter_none, Forall_forall. intros kr _.
  unfold where_clause. by rewrite !decide_False.
Qed.

Lemma shuffle_each_ids rnd qs : q_id <$> shuffle_each rnd qs = q_id <$> qs.
Proof.
  revert rnd. induction qs as [|q qs IH]; intros rnd; [done|].
  simpl. f_equal. apply IH.
Qed.

(** X8. The query returns exactly [min(n, 10)] questions when [n] rows pass
    its [WHERE] clause; when at most ten do, it returns every one of them;
    and for an option other than 1, 2 and 3 it returns nothing. *)
Theorem query_returns_all_when_few keys opt (t : gmap Z Row) :
  length (get_random_questions keys opt t)
    = (length (matching opt t) `min` 10)%nat ∧
  ((length (matching opt t) ≤ 10)%nat →
   get_random_questions keys opt t ≡ₚ to_dict <$> matching opt t) ∧
  (opt ∉ [1; 2; 3] → get_random_questions keys opt t = []).
Proof.
  split; [apply get_random_questions_length|]. split.
  - intros Hfew.
    destruct (get_random_questions_ids keys opt t) as (l & Hl & ->).
    rewrite take_ge by (by rewrite Hl). by rewrite Hl.
  - intros Hopt. unfold get_random_questions.
    by rewrite (matching_other_option _ _ Hopt).
Qed.

Lemma query_returns_all_when_few_witness :
  get_random_questions sample_keys 1 (sample_table 5)
    ≡ₚ to_dict <$> matching 1 (sample_table 5).
Proof.
  apply (proj1 (proj2 (query_returns_all_when_few sample_keys 1
                         (sample_table 5)))).
  vm_compute. lia.
Defined.

(** X9. The batch of a quiz that starts consists of ten questions with ten
    different ids, each of them a row that satisfied the filter of the quiz
    type when the quiz started: an untested quiz has only questions never
    asked, an incorrect quiz only questions last answered wrongly. *)
Theorem start_quiz_batch_matches keys rnd qt f w w' :
  quiz_option_map qt = Some (filter_option f) →
  start_quiz keys rnd qt w = (Rerun, w') →
  length (questions (session_state w')) = 10%nat ∧
  NoDup (q_id <$> questions (session_state w')) ∧
  ∀ q, q ∈ questions (session_state w') →
       ∃ r, db w !! q_id q = Some r ∧ matches f r.
Proof.
  intros Hopt Hstart.
  destruct (start_quiz_cases keys rnd qt w)
    as [[_ Heq]|[(opt & _ & _ & Heq)|(opt & Hopt' & Hn & Heq)]];
    rewrite Heq in Hstart; simplify_eq.
  simpl. split; [by apply start_quiz_batch|]. split.
  - rewrite shuffle_each_ids. apply get_random_questions_NoDup.
  - intros q (q0 & Hq0 & options & -> & _)%shuffle_each_elem.
    apply get_random_questions_elem in Hq0 as (r & Hr & Hw & _).
    exists r. split; [done|]. by apply where_clause_matches.
Qed.

Lemma start_quiz_batch_matches_witness :
  NoDup (q_id <$> questions (session_state started)).
Proof.
  destruct (start_quiz_batch_matches sample_keys sample_rnd
              "Untested Questions Quiz" UNASKED (fresh (sample_table 12))
              started) as (_ & Hnd & _).
  - reflexivity.
  - vm_compute. reflexivity.
  - exact Hnd.
Defined.

(** X10. With fewer than ten rows in the user's table no quiz of any of the
    three types can start: [start_quiz] reports that there are not enough
    questions and leaves table and session as they were. *)
Theorem small_table_never_starts keys rnd qt w :
  qt ∈ quiz_types →
  (size (db w) < 10)%nat →
  start_quiz keys rnd qt w =
    (Returned, {| db := db w; session_state := session_state w;
                  ui := ui w ++ [not_enough qt] |}).
Proof.
  intros Hqt Hsize.
  destruct (start_quiz_cases keys rnd qt w)
    as [[Hnone _]|[(opt & _ & _ & Heq)|(opt & _ & Hn & _)]].
  - by apply quiz_option_map_None in Hnone.
  - done.
  - pose proof (matching_length opt (db w)). lia.
Qed.

Lemma small_table_never_starts_witness :
  (start_quiz sample_keys sample_rnd "Random Quiz" (sample_world 5)).1
    = Returned.
Proof.
  rewrite (small_table_never_starts sample_keys sample_rnd "Random Quiz"
             (sample_world 5)).
  - reflexivity.
  - apply list_elem_of_here.
  - vm_compute. lia.
Defined.

(** X11. Once the user's table has rows, an execution of the script in which
    the user clicks nothing changes nothing: table, session and messages stay
    as they are, whatever the stage.  This is the execution that follows every
    [st.rerun()]. *)
Theorem rerun_without_click cs t master :
  db (run_clicks cs (fresh t)) ≠ ∅ →
  main master NoClick (run_clicks cs (fresh t))
    = (Returned, run_clicks cs (fresh t)).
Proof.
  intros Hne. unfold main. rewrite initialize_user_database_nonempty by done.
  destruct (run_clicks_dispatch_ok cs (fresh t) initial_session_ok)
    as (_ & Hquiz & _ & _ & Hopts).
  unfold run.
  destruct (current_stage (session_state (run_clicks cs (fresh t))))
    eqn:Hstage; [done| |done].
  unfold render_quiz.
  destruct (lookup_lt_is_Some_2 _ _ (Hquiz eq_refl)) as [q Hq].
  rewrite Hq.
  by destruct (proj1 (Forall_lookup _ _) Hopts _ _ Hq) as [options ->].
Qed.

Lemma rerun_without_click_witness :
  main None NoClick started = (Returned, started).
Proof.
  apply (rerun_without_click [start_click] ∅ None).
  intros Heq. apply (f_equal (λ t : gmap Z Row, size t)) in Heq.
  vm_compute in Heq. discriminate Heq.
Defined.

(** ** The table records the quiz *)

Lemma recorded_menu w :
  current_stage (session_state w) = Menu → batch_recorded w.
Proof. intros Hstage Hne. done. Qed.

Lemma start_quiz_recorded keys rnd qt w :
  current_stage (session_state w) = Menu →
  batch_recorded (start_quiz keys rnd qt w).2.
Proof.
  intros Hstage.
  destruct (start_quiz_cases keys rnd qt w)
    as [[_ ->]|[(opt & _ & _ & ->)|(opt & _ & _ & ->)]];
    [by apply recorded_menu..|].
  intros _. simpl. split; [|split].
  - rewrite shuffle_each_ids. apply get_random_questions_NoDup.
  - intros q (q0 & Hq0 & options & -> & _)%shuffle_each_elem.
    apply get_random_questions_elem in Hq0 as (r & Hr & _ & Hq0).
    exists r. split; [done|]. unfold from_row. simpl.
    change (stored_options (set_shuffled_options q0 options))
      with (stored_options q0).
    by rewrite Hq0.
  - intros j q r _ Hr. done.
Qed.

Lemma submit_answer_recorded user_answer w :
  session_ok (session_state w) →
  current_stage (session_state w) ≠ Menu →
  batch_recorded w →
  batch_recorded (submit_answer user_answer w).2.
Proof.
  intros (Hres & _) Hstage Hrec.
  destruct (Hrec Hstage) as (Hnd & Hrows & Hdone).
  unfold submit_answer.
  destruct (questions _ !! _) as [q|] eqn:Hq; [|done].
  intros _. simpl. split; [done|]. split.
  - intros q' Hq'. destruct (Hrows q' Hq') as (row & Hrow & Hfrom).
    rewrite record_answer_lookup, Hrow.
    case_decide; eexists; (split; [done|]); done.
  - intros j q' r Hq' Hr.
    destruct (Hrows q' (list_elem_of_lookup_2 _ _ _ Hq')) as (row & Hrow & _).
    apply lookup_app_Some in Hr as [Hr|[Hj Hr]].
    + destruct (Hdone j q' r Hq' Hr) as (row' & Hrow' & Hflags).
      rewrite record_answer_lookup, decide_False; [by exists row'|].
      intros Hid. apply lookup_lt_Some in Hr.
      assert (current_question_index (session_state w) = j); [|lia].
      apply (NoDup_lookup _ _ _ (q_id q) Hnd).
      * by rewrite list_lookup_fmap, Hq.
      * by rewrite list_lookup_fmap, Hq', Hid.
    + pose proof (lookup_lt_Some _ _ _ Hr) as Hlt. simpl in Hlt.
      assert (j = current_question_index (session_state w)) as -> by lia.
      rewrite Hres, Nat.sub_diag in Hr. simplify_eq/=.
      rewrite record_answer_lookup, decide_True, Hrow by done.
      eexists. split; [done|]. done.
Qed.

Lemma initialize_user_database_recorded master w :
  dispatch_ok (session_state w) → batch_recorded w →
  batch_recorded (initialize_user_database master w).
Proof.
  intros (_ & _ & _ & Hten & _) Hrec.
  assert (current_stage (session_state w) = Menu ∨
          current_stage (session_state w) ≠ Menu) as [Hmenu|Hstage]
    by (destruct (current_stage (session_state w)); auto).
  - apply recorded_menu. by rewrite initialize_user_database_session.
  - rewrite initialize_user_database_nonempty; [done|].
    destruct (Hrec Hstage) as (_ & Hrows & _).
    destruct (lookup_lt_is_Some_2 (questions (session_state w)) 0) as [q Hq].
    { rewrite (Hten Hstage). lia. }
    destruct (Hrows q (list_elem_of_lookup_2 _ _ _ Hq)) as (row & Hrow & _).
    intros Hempty. by rewrite Hempty, lookup_empty in Hrow.
Qed.

Lemma run_recorded c w :
  dispatch_ok (session_state w) → batch_recorded w →
  batch_recorded (run c w).2.
Proof.
  intros (Hok & _) Hrec. unfold run.
  destruct (current_stage (session_state w)) eqn:Hstage.
  - destruct c; simpl; try done; try (by apply recorded_menu).
    destruct (quiz_types !! i); [|done]. by apply start_quiz_recorded.
  - unfold render_quiz.
    destruct (questions _ !! _) as [q|]; [|done].
    destruct (q_shuffled_options q); [|done].
    destruct c; try done.
    apply submit_answer_recorded; [done| |done]. by rewrite Hstage.
  - destruct c; simpl; try done; by apply recorded_menu.
Qed.

Lemma run_clicks_recorded cs w :
  dispatch_ok (session_state w) → batch_recorded w →
  batch_recorded (run_clicks cs w).
Proof.
  revert w. induction cs as [|[master c] cs IH]; intros w Hok Hrec; [done|].
  apply IH; [by apply main_dispatch_ok|].
  apply run_recorded.
  - by rewrite initialize_user_database_session.
  - by apply initialize_user_database_recorded.
Qed.

Lemma length_filter_Forall2 {A B} (P : A → Prop) (Q : B → Prop)
    `{!∀ x, Decision (P x)} `{!∀ y, Decision (Q y)} (l : list A) (k : list B) :
  Forall2 (λ x y, P x ↔ Q y) l k →
  length (filter P l) = length (filter Q k).
Proof.
  induction 1 as [|x y l k Hxy _ IH]; [done|].
  rewrite !filter_cons.
  destruct (decide (P x)), (decide (Q y)); simpl; try tauto; by rewrite IH.
Qed.

(** X12. While a quiz runs and on its results page, the table agrees with
    the session: the batch has no id twice; every question of it has a row,
    with the text, the options and the answer the question shows; and the row
    of every question answered so far has [has_asked = 1] and
    [user_answered_correctly] equal to the correctness its result shows. *)
Theorem finished_quiz_is_recorded cs t :
  current_stage (session_state (run_clicks cs (fresh t))) ≠ Menu →
  NoDup (q_id <$> questions (session_state (run_clicks cs (fresh t)))) ∧
  (∀ q, q ∈ questions (session_state (run_clicks cs (fresh t))) →
        ∃ row, db (run_clicks cs (fresh t)) !! q_id q = Some row ∧
               from_row q row) ∧
  (∀ j q r,
     questions (session_state (run_clicks cs (fresh t))) !! j = Some q →
     results (session_state (run_clicks cs (fresh t))) !! j = Some r →
     ∃ row, db (run_clicks cs (fresh t)) !! q_id q = Some row ∧
            has_asked row = 1 ∧
            user_answered_correctly row = sql_bool (r_is_correct r)).
Proof.
  apply (run_clicks_recorded cs (fresh t) initial_session_ok).
  by apply recorded_menu.
Qed.

Lemma finished_quiz_is_recorded_witness :
  NoDup (q_id <$> questions (session_state played)).
Proof.
  destruct (finished_quiz_is_recorded played_clicks ∅) as (Hnd & _).
  - vm_compute. discriminate.
  - exact Hnd.
Defined.

(** X13. On the results page the score equals the number of questions of the
    batch whose row in the table is marked as answered correctly. *)
Theorem score_matches_table cs t :
  current_stage (session_state (run_clicks cs (fresh t))) = Results →
  score (results (session_state (run_clicks cs (fresh t)))) =
  length (filter (λ q, user_answered_correctly
                         <$> db (run_clicks cs (fresh t)) !! q_id q = Some 1)
            (questions (session_state (run_clicks cs (fresh t))))).
Proof.
  intros Hstage.
  destruct (run_clicks_dispatch_ok cs (fresh t) initial_session_ok)
    as ((Hres & _ & Hle & _) & _ & Hother & _).
  destruct (run_clicks_recorded cs (fresh t) initial_session_ok)
    as (_ & _ & Hdone); [by apply recorded_menu|congruence|].
  rewrite score_length. apply length_filter_Forall2.
  apply Forall2_same_length_lookup_2.
  - assert (length (questions (session_state (run_clicks cs (fresh t))))
              ≤ current_question_index (session_state (run_clicks cs (fresh t))))%nat
      by (apply Hother; congruence).
    lia.
  - intros j r q Hr Hq.
    destruct (Hdone j q r Hq Hr) as (row & -> & _ & Hflag). simpl.
    rewrite Hflag. destruct (r_is_correct r); simpl; split; congruence.
Qed.

Lemma score_matches_table_witness :
  score (results (session_state played)) =
  length (filter (λ q, user_answered_correctly <$> db played !! q_id q = Some 1)
            (questions (session_state played))).
Proof.
  apply (score_matches_table played_clicks ∅).
  vm_compute. reflexivity.
Defined.

(** ** The quiz page *)

Lemma start_quiz_options_shuffled keys rnd qt w :
  options_shuffled (session_state w) →
  options_shuffled (session_state (start_quiz keys rnd qt w).2).
Proof.
  intros Hsh.
  destruct (start_quiz_cases keys rnd qt w)
    as [[_ ->]|[(opt & _ & _ & ->)|(opt & _ & _ & ->)]]; [done..|].
  apply Forall_forall.
  intros q (q0 & _ & options & -> & Hperm)%shuffle_each_elem.
  by exists options.
Qed.

Lemma submit_answer_questions user_answer w :
  questions (session_state (submit_answer user_answer w).2)
    = questions (session_state w).
Proof. unfold submit_answer. by destruct (questions _ !! _). Qed.

Lemma run_options_shuffled c w :
  options_shuffled (session_state w) →
  options_shuffled (session_state (run c w).2).
Proof.
  intros Hsh. unfold run, render_menu, render_quiz, render_results.
  destruct (current_stage (session_state w)).
  - destruct c; try done.
    destruct (quiz_types !! i); [|done]. by apply start_quiz_options_shuffled.
  - destruct (questions _ !! _) as [q|] eqn:Hq; [|done].
    destruct (q_shuffled_options q); [|done].
    destruct c; try done.
    unfold options_shuffled. by rewrite submit_answer_questions.
  - by destruct c.
Qed.

Lemma run_clicks_options_shuffled cs w :
  options_shuffled (session_state w) →
  options_shuffled (session_state (run_clicks cs w)).
Proof.
  revert w. induction cs as [|[master c] cs IH]; intros w Hsh; [done|].
  apply IH, run_options_shuffled.
  by rewrite initialize_user_database_session.
Qed.

(** X14. Whenever the stage is Quiz, the quiz page has what it displays: a
    question number between 1 and 10 (so the progress value is at most 1), a
    current question in the batch, and for it a list of five shuffled options
    that is a permutation of its own five options. *)
Theorem quiz_page_has_question cs t :
  current_stage (session_state (run_clicks cs (fresh t))) = Quiz →
  (1 ≤ question_number (session_state (run_clicks cs (fresh t))) ≤ 10)%nat ∧
  ∃ q options,
    questions (session_state (run_clicks cs (fresh t)))
      !! current_question_index (session_state (run_clicks cs (fresh t)))
      = Some q ∧
    q_shuffled_options q = Some options ∧
    options ≡ₚ stored_options q ∧
    length options = 5%nat.
Proof.
  intros Hstage.
  destruct (run_clicks_dispatch_ok cs (fresh t) initial_session_ok)
    as ((_ & _ & _ & Hten) & Hquiz & _).
  specialize (Hquiz Hstage).
  split; [unfold question_number; lia|].
  destruct (lookup_lt_is_Some_2 _ _ Hquiz) as [q Hq].
  pose proof (run_clicks_options_shuffled cs (fresh t)) as Hsh.
  destruct (proj1 (Forall_lookup _ _) (Hsh (Forall_nil_2 _)) _ _ Hq)
    as (options & Hopt & Hperm).
  exists q, options. repeat split; try done. by rewrite Hperm.
Qed.

Lemma quiz_page_has_question_witness :
  (1 ≤ question_number (session_state started) ≤ 10)%nat.
Proof.
  destruct (quiz_page_has_question [start_click] ∅) as [Hnum _].
  - vm_compute. reflexivity.
  - exact Hnum.
Defined.

(** ** The session dict *)

Lemma set_default_union (d : gmap string PyVal) kv :
  set_default d kv = d ∪ {[kv.1 := kv.2]}.
Proof.
  unfold set_default. apply map_eq. intros k.
  rewrite lookup_union.
  destruct (d !! kv.1) as [v|] eqn:Hd.
  - destruct (decide (k = kv.1)) as [->|Hne].
    + rewrite Hd, lookup_singleton_eq. done.
    + rewrite lookup_singleton_ne by done. by destruct (d !! k).
  - rewrite insert_union_singleton_l, lookup_union.
    destruct (decide (k = kv.1)) as [->|Hne].
    + by rewrite Hd, lookup_singleton_eq.
    + rewrite lookup_singleton_ne by done. by destruct (d !! k).
Qed.

Lemma foldl_set_default (l : list (string * PyVal)) (d : gmap string PyVal) :
  foldl set_default d l = d ∪ list_to_map l.
Proof.
  revert d. induction l as [|kv l IH]; intros d; simpl.
  - by rewrite (right_id_L ∅ (∪)).
  - rewrite IH, set_default_union, insert_union_singleton_l.
    by rewrite (assoc_L (∪)).
Qed.

Lemma initialize_session_state_union (d : gmap string PyVal) :
  initialize_session_state d = d ∪ list_to_map defaults.
Proof. apply foldl_set_default. Qed.

Lemma append_length s1 s2 :
  String.length (s1 +:+ s2) = (String.length s1 + String.length s2)%nat.
Proof. induction s1 as [|c s1 IH]; simpl; [done|]. by rewrite IH. Qed.

Lemma append_inj_suffix s1 s2 t : s1 +:+ t = s2 +:+ t → s1 = s2.
Proof.
  revert s2. induction s1 as [|c s1 IH]; intros [|c' s2] Heq.
  - done.
  - apply (f_equal String.length) in Heq.
    rewrite !append_length in Heq. simpl in Heq. lia.
  - apply (f_equal String.length) in Heq.
    rewrite !append_length in Heq. simpl in Heq. lia.
  - injection Heq as -> Heq. f_equal. by apply IH.
Qed.

Lemma db_path_cases user_id :
  db_path user_id =
    if String.prefix "/" (user_id +:+ "_questions.db")
    then user_id +:+ "_questions.db"
    else ".user_databases/" +:+ (user_id +:+ "_questions.db").
Proof. unfold db_path, path_join. by destruct (String.prefix _ _). Qed.

(** X15. [initialize_session_state] only fills in what is missing: a key the
    session dict has keeps its value, each of the six keys of [defaults] is
    there afterwards, a missing one with its default value, and a second run
    changes nothing. *)
Theorem initialize_session_state_fills_missing :
  (∀ (d : gmap string PyVal) k,
     initialize_session_state d !! k =
       match d !! k with
       | Some v => Some v
       | None => (list_to_map defaults : gmap string PyVal) !! k
       end) ∧
  (∀ (d : gmap string PyVal) k,
     k ∈ defaults.*1 → is_Some (initialize_session_state d !! k)) ∧
  (∀ d : gmap string PyVal,
     initialize_session_state (initialize_session_state d)
       = initialize_session_state d) ∧
  initialize_session_state ∅ = list_to_map defaults.
Proof.
  assert (∀ (d : gmap string PyVal) k,
            initialize_session_state d !! k =
              match d !! k with
              | Some v => Some v
              | None => (list_to_map defaults : gmap string PyVal) !! k
              end) as Hlookup.
  { intros d k. rewrite initialize_session_state_union, lookup_union.
    destruct (d !! k); [|by rewrite (left_id_L None union)].
    by destruct (_ !! k). }
  split; [done|]. split; [|split].
  - intros d k Hk. rewrite Hlookup. destruct (d !! k); [by eexists|].
    apply elem_of_dom. rewrite dom_list_to_map_L. by apply elem_of_list_to_set.
  - intros d. rewrite !initialize_session_state_union.
    rewrite <- (assoc_L (∪)). by rewrite (idemp_L (∪)).
  - rewrite initialize_session_state_union. by rewrite (left_id_L ∅ (∪)).
Qed.

(** X16. [__init__] gives a session without a user id the first eight
    characters of the UUID drawn, and never replaces a user id: running it
    again, with whatever UUID, leaves the whole session dict, and with it the
    path of the user's database, as the first run left them. *)
Theorem user_id_is_kept uuid uuid' (d : gmap string PyVal) :
  (d !! "user_id" = None →
   quiz_app_init uuid d !! "user_id" = Some (PyStr (generate_user_id uuid))) ∧
  (∀ v, d !! "user_id" = Some v → quiz_app_init uuid d !! "user_id" = Some v) ∧
  quiz_app_init uuid' (quiz_app_init uuid d) = quiz_app_init uuid d ∧
  session_db_path (quiz_app_init uuid' (quiz_app_init uuid d))
    = session_db_path (quiz_app_init uuid d).
Proof.
  assert (quiz_app_init uuid' (quiz_app_init uuid d) = quiz_app_init uuid d)
    as Hidemp.
  { unfold quiz_app_init. rewrite !initialize_session_state_union.
    assert (init_user_id uuid' (init_user_id uuid d ∪ list_to_map defaults)
            = init_user_id uuid d ∪ list_to_map defaults) as ->.
    { unfold init_user_id at 1.
      destruct ((init_user_id uuid d ∪ _) !! "user_id") eqn:Hu; [done|].
      apply lookup_union_None in Hu as [Hu _].
      unfold init_user_id in Hu. destruct (d !! "user_id") eqn:Hd.
      - by rewrite Hd in Hu.
      - by rewrite lookup_insert_eq in Hu. }
    rewrite <- (assoc_L (∪)). by rewrite (idemp_L (∪)). }
  split; [|split; [|split]].
  - intros Hd. unfold quiz_app_init.
    rewrite initialize_session_state_union. apply lookup_union_Some_l.
    unfold init_user_id. by rewrite Hd, lookup_insert_eq.
  - intros v Hd. unfold quiz_app_init.
    rewrite initialize_session_state_union. apply lookup_union_Some_l.
    unfold init_user_id. by rewrite Hd.
  - done.
  - by rewrite Hidemp.
Qed.

Lemma user_id_is_kept_witness :
  session_db_path (quiz_app_init "0a1b2c3d-0000-4000-8000-000000000000" ∅)
    = Some ".user_databases/0a1b2c3d_questions.db".
Proof.
  destruct (user_id_is_kept "0a1b2c3d-0000-4000-8000-000000000000" "" ∅)
    as (Hnew & _).
  unfold session_db_path. rewrite Hnew; reflexivity.
Defined.

(** X17. On a POSIX system two different user ids never give the same
    database path. *)
Theorem db_path_injective u1 u2 : u1 ≠ u2 → db_path u1 ≠ db_path u2.
Proof.
  intros Hne Heq. apply Hne. rewrite !db_path_cases in Heq.
  destruct (String.prefix "/" (u1 +:+ _)) eqn:H1,
           (String.prefix "/" (u2 +:+ _)) eqn:H2.
  - by apply append_inj_suffix in Heq.
  - rewrite Heq in H1. simpl in H1. discriminate H1.
  - rewrite <- Heq in H2. simpl in H2. discriminate H2.
  - apply (inj (String.append ".user_databases/")) in Heq.
    by apply append_inj_suffix in Heq.
Qed.

Lemma db_path_injective_witness : db_path "0a1b2c3d" ≠ db_path "ffffffff".
Proof. apply db_path_injective. discriminate. Defined.

(** ** Answers, resets and the three quiz types *)

Lemma record_answer_to_list id is_correct (t : gmap Z Row) r :
  t !! id = Some r →
  map_to_list (record_answer id is_correct t)
    ≡ₚ (id, mark_answered is_correct r) :: map_to_list (delete id t).
Proof.
  intros Hr.
  assert (record_answer id is_correct t
          = <[id:=mark_answered is_correct r]> (delete id t)) as ->.
  { apply map_eq. intros id'. rewrite record_answer_lookup.
    case_decide as Hid.
    - subst id'. by rewrite lookup_insert_eq, Hr.
    - by rewrite lookup_insert_ne, lookup_delete_ne. }
  apply map_to_list_insert, lookup_delete_eq.
Qed.

Lemma record_answer_missing id is_correct (t : gmap Z Row) :
  t !! id = None → record_answer id is_correct t = t.
Proof.
  intros Hr. apply map_eq. intros id'. rewrite record_answer_lookup.
  case_decide; [|done]. subst id'. by rewrite Hr.
Qed.

Lemma matching_all (t : gmap Z Row) : matching 1 t = map_to_list t.
Proof. apply filter_all, Forall_forall. by intros kr _. Qed.

(** X18. Answering a question whose row is untested lowers the number of
    untested questions by exactly one; answering any other question leaves
    that number as it is.  It never grows. *)
Theorem submit_consumes_one_untested user_answer w q :
  questions (session_state w) !! current_question_index (session_state w)
    = Some q →
  (∀ r, db w !! q_id q = Some r → has_asked r = 0 →
        S (length (matching (filter_option UNASKED)
                     (db (submit_answer user_answer w).2)))
        = length (matching (filter_option UNASKED) (db w))) ∧
  (∀ r, db w !! q_id q = Some r → has_asked r ≠ 0 →
        length (matching (filter_option UNASKED)
                  (db (submit_answer user_answer w).2))
        = length (matching (filter_option UNASKED) (db w))) ∧
  (length (matching (filter_option UNASKED)
             (db (submit_answer user_answer w).2))
     ≤ length (matching (filter_option UNASKED) (db w)))%nat.
Proof.
  intros Hq.
  assert (db (submit_answer user_answer w).2 =
          record_answer (q_id q) (bool_decide (user_answer = q_answer q)) (db w))
    as -> by (unfold submit_answer; by rewrite Hq).
  assert (∀ r, db w !! q_id q = Some r →
            length (matching (filter_option UNASKED)
                      (record_answer (q_id q)
                         (bool_decide (user_answer = q_answer q)) (db w)))
            = length (filter (λ kr : Z * Row,
                                where_clause (filter_option UNASKED) kr.2 = true)
                        (map_to_list (delete (q_id q) (db w)))) ∧
            length (matching (filter_option UNASKED) (db w))
            = length (filter (λ kr : Z * Row,
                                where_clause (filter_option UNASKED) kr.2 = true)
                        ((q_id q, r) :: map_to_list (delete (q_id q) (db w)))))
    as Hcount.
  { intros r Hr. unfold matching. split.
    - rewrite (record_answer_to_list _ _ _ _ Hr).
      by rewrite filter_cons_False by done.
    - by rewrite <- (map_to_list_delete _ _ _ Hr). }
  split; [|split].
  - intros r Hr Hun. destruct (Hcount r Hr) as [-> ->].
    by rewrite filter_cons_True by (by apply where_clause_matches).
  - intros r Hr Has. destruct (Hcount r Hr) as [-> ->].
    by rewrite filter_cons_False by (by rewrite where_clause_matches).
  - destruct (db w !! q_id q) as [r|] eqn:Hr.
    + destruct (Hcount r eq_refl) as [-> ->].
      rewrite filter_cons. destruct (decide _); cbn [length]; lia.
    + by rewrite record_answer_missing.
Qed.

Lemma submit_consumes_one_untested_witness :
  S (length (matching (filter_option UNASKED)
               (db (submit_answer (Some "b") started).2)))
  = length (matching (filter_option UNASKED) (db started)).
Proof.
  destruct (submit_consumes_one_untested (Some "b") started
              (mkQDict 1 (Some "q") (Some "a") (Some "b") (Some "c") None None
                 (Some "a") (Some [Some "c"; Some "b"; None; None; Some "a"])))
    as (Hone & _).
  - vm_compute. reflexivity.
  - apply (Hone sample_row); vm_compute; reflexivity.
Defined.

(** X19. Right after a reset the quiz of incorrect questions cannot start,
    however many questions there are: there is none left that counts as
    answered incorrectly. *)
Theorem reset_blocks_incorrect_quiz keys rnd w :
  start_quiz keys rnd "Incorrect Questions Quiz" (reset_all_questions w).2 =
    (Returned,
     {| db := db (reset_all_questions w).2;
        session_state := session_state w;
        ui := ui (reset_all_questions w).2
                ++ [not_enough "Incorrect Questions Quiz"] |}).
Proof.
  destruct (start_quiz_cases keys rnd "Incorrect Questions Quiz"
              (reset_all_questions w).2)
    as [[Hnone _]|[(opt & Hopt & _ & Heq)|(opt & Hopt & Hn & _)]].
  - discriminate Hnone.
  - done.
  - injection Hopt as <-.
    change 3 with (filter_option INCORRECT) in Hn.
    change (db (reset_all_questions w).2) with (reset_row <$> db w) in Hn.
    rewrite reset_matching_incorrect in Hn. simpl in Hn. lia.
Qed.

(** X20. The random quiz starts exactly when the user's table has at least
    ten rows, whatever their flags. *)
Theorem random_quiz_starts_iff_ten_rows keys rnd w :
  (start_quiz keys rnd "Random Quiz" w).1 = Rerun ↔ (10 ≤ size (db w))%nat.
Proof.
  destruct (start_quiz_cases keys rnd "Random Quiz" w)
    as [[Hnone _]|[(opt & Hopt & Hn & Heq)|(opt & Hopt & Hn & Heq)]].
  - discriminate Hnone.
  - injection Hopt as <-. rewrite matching_all, length_map_to_list in Hn.
    rewrite Heq. simpl. split; [done|lia].
  - injection Hopt as <-. rewrite matching_all, length_map_to_list in Hn.
    rewrite Heq. simpl. done.
Qed.

(** X21. Without a master table of questions a new user gets an empty
    table: [initialize_user_database] reports the error on every execution,
    and a click on any of the three quiz buttons only adds the message that
    there are not enough questions; the session stays on the menu. *)
Theorem missing_master_blocks_quiz keys rnd i qt w :
  db w = ∅ →
  current_stage (session_state w) = Menu →
  quiz_types !! i = Some qt →
  main None (ClickQuiz keys rnd i) w =
    (Returned,
     {| db := ∅; session_state := session_state w;
        ui := ui w ++ [StError "Database initialization error";
                       not_enough qt] |}).
Proof.
  intros Hempty Hstage Hqt. unfold main, initialize_user_database.
  rewrite Hempty, map_size_empty. simpl.
  unfold run. simpl. rewrite Hstage. simpl. rewrite Hqt.
  match goal with |- start_quiz _ _ _ ?w0 = _ => set (w1 := w0) end.
  destruct (start_quiz_cases keys rnd qt w1)
    as [[Hnone _]|[(opt & _ & _ & ->)|(opt & _ & Hn & _)]].
  - apply quiz_option_map_None in Hnone. destruct Hnone.
    by eapply list_elem_of_lookup_2.
  - simpl. by rewrite <- (assoc_L (++)).
  - pose proof (matching_length opt (db w1)) as Hlen. simpl in Hlen.
    rewrite map_size_empty in Hlen. simpl in Hn. lia.
Qed.

Lemma missing_master_blocks_quiz_witness :
  main None (ClickQuiz sample_keys sample_rnd 0) (fresh ∅) =
    (Returned,
     {| db := ∅; session_state := initial_session;
        ui := [StError "Database initialization error";
               not_enough "Random Quiz"] |}).
Proof.
  apply (missing_master_blocks_quiz sample_keys sample_rnd 0 "Random Quiz"
           (fresh ∅)); reflexivity.
Defined.

Lemma record_answer_untested_count id is_correct (t : gmap Z Row) r :
  t !! id = Some r → has_asked r = 0 →
  S (length (matching (filter_option UNASKED) (record_answer id is_correct t)))
  = length (matching (filter_option UNASKED) t).
Proof.
  intros Hr Hun. unfold matching.
  rewrite (record_answer_to_list _ _ _ _ Hr), <- (map_to_list_delete _ _ _ Hr).
  rewrite filter_cons_False by done.
  by rewrite filter_cons_True by (by apply where_clause_matches).
Qed.

Lemma start_quiz_pending keys rnd w w1 :
  start_quiz keys rnd "Untested Questions Quiz" w = (Rerun, w1) →
  pending_untested w1 ∧ db w1 = db w ∧
  current_question_index (session_state w1) = 0%nat ∧
  length (questions (session_state w1)) = 10%nat.
Proof.
  intros Hstart.
  destruct (start_quiz_cases keys rnd "Untested Questions Quiz" w)
    as [[_ Heq]|[(opt & _ & _ & Heq)|(opt & Hopt & Hn & Heq)]];
    rewrite Heq in Hstart; try discriminate Hstart.
  injection Hstart as <-. injection Hopt as <-.
  split; [|split; [done|split; [done|by apply start_quiz_batch]]].
  split; simpl.
  - rewrite shuffle_each_ids. apply get_random_questions_NoDup.
  - intros j q _ Hq. apply list_elem_of_lookup_2 in Hq.
    apply shuffle_each_elem in Hq as (q0 & Hq0 & options & -> & _).
    apply get_random_questions_elem in Hq0 as (r & Hr & Hw & _).
    exists r. split; [done|].
    by apply (where_clause_matches UNASKED).
Qed.

Lemma submit_answer_pending user_answer w :
  pending_untested w →
  (current_question_index (session_state w)
     < length (questions (session_state w)))%nat →
  pending_untested (submit_answer user_answer w).2 ∧
  questions (session_state (submit_answer user_answer w).2)
    = questions (session_state w) ∧
  current_question_index (session_state (submit_answer user_answer w).2)
    = S (current_question_index (session_state w)) ∧
  S (length (matching (filter_option UNASKED)
               (db (submit_answer user_answer w).2)))
  = length (matching (filter_option UNASKED) (db w)).
Proof.
  intros [Hnd Hrows] Hlt.
  destruct (lookup_lt_is_Some_2 _ _ Hlt) as [q Hq].
  destruct (Hrows _ q (le_n _) Hq) as (r & Hr & Hun).
  unfold submit_answer. rewrite Hq. simpl.
  split; [|split; [done|split; [done|]]].
  - split; [done|]. simpl. intros j q' Hj Hq'.
    destruct (Hrows j q') as (r' & Hr' & Hun'); [lia|done|].
    exists r'. split; [|done].
    rewrite record_answer_lookup, decide_False; [done|].
    intros Hid.
    assert (current_question_index (session_state w) = j); [|lia].
    apply (NoDup_lookup _ _ _ (q_id q) Hnd).
    + by rewrite list_lookup_fmap, Hq.
    + by rewrite list_lookup_fmap, Hq', Hid.
  - by apply record_answer_untested_count with r.
Qed.

Lemma submits_consume_untested answers w :
  pending_untested w →
  (current_question_index (session_state w) + length answers
     ≤ length (questions (session_state w)))%nat →
  (length (matching (filter_option UNASKED)
             (db (run_events (EvSubmit <$> answers) w))) + length answers)%nat
  = length (matching (filter_option UNASKED) (db w)).
Proof.
  revert w. induction answers as [|a answers IH]; intros w Hpend Hle.
  - simpl. lia.
  - simpl in Hle.
    destruct (submit_answer_pending a w Hpend) as (Hpend' & Hqs & Hidx & Hone);
      [lia|].
    change (run_events (EvSubmit <$> a :: answers) w)
      with (run_events (EvSubmit <$> answers) (submit_answer a w).2).
    specialize (IH (submit_answer a w).2 Hpend').
    rewrite Hqs, Hidx in IH. cbn [length]. rewrite <- Hone.
    rewrite <- IH by lia. lia.
Qed.

(** X22. A finished quiz of untested questions has used up exactly ten of
    them: after the ten answers, whatever they are, the table has ten untested
    questions fewer than when the quiz started. *)
Theorem untested_quiz_consumes_ten keys rnd w w1 answers :
  start_quiz keys rnd "Untested Questions Quiz" w = (Rerun, w1) →
  length answers = 10%nat →
  (length (matching (filter_option UNASKED)
             (db (run_events (EvSubmit <$> answers) w1))) + 10)%nat
  = length (matching (filter_option UNASKED) (db w)).
Proof.
  intros Hstart Hlen.
  destruct (start_quiz_pending keys rnd w w1 Hstart)
    as (Hpend & Hdb & Hidx & Hten).
  rewrite <- Hdb, <- Hlen. apply submits_consume_untested; [done|lia].
Qed.

Lemma untested_quiz_consumes_ten_witness :
  (length (matching (filter_option UNASKED)
             (db (run_events (EvSubmit <$> replicate 10 (Some "b")) started)))
   + 10)%nat = 12%nat.
Proof.
  rewrite (untested_quiz_consumes_ten sample_keys sample_rnd
             (fresh (sample_table 12)) started (replicate 10 (Some "b"))).
  - vm_compute. reflexivity.
  - vm_compute. reflexivity.
  - reflexivity.
Defined.
